(** * A shallow embedding of sqldiff ([src/sqldiff.py]) and its specification.

    Python exceptions are modelled by the [result] type below, Python
    dicts by stdpp's [gmap], Python sets by [gset].  Text is modelled with
    Rocq's [string]; every character is read as the code point of the same
    number, and the character classes used by the code ([str.split]
    whitespace, the regex class [\w], [str.upper]) are written out for
    ASCII, which is the text the tool handles.  [!=] is read with Python 3
    semantics, where it negates [__eq__]. *)

From Stdlib Require Import ZArith Ascii String.
From stdpp Require Import base list gmap strings.

Open Scope string_scope.

(** ** Exceptions and the error monad *)

(** The reasons for the [ValueError]s the code can raise. *)
Inductive value_error :=
| InvalidTableDefinition   (* [raise ValueError('Invalid table definition')] *)
| InvalidLiteral           (* [int()] of a string that is not an integer *)
| UnpackMismatch.          (* [a, b = xs] with [len(xs) <> 2] *)

Inductive exn :=
| ValueError (why : value_error)
| IndexError
| KeyError.

Inductive result (A : Type) :=
| Ok (a : A)
| Err (e : exn).
Arguments Ok {A} a.
Arguments Err {A} e.

Global Instance result_ret : MRet result := fun _ a => Ok a.
Global Instance result_bind : MBind result :=
  fun _ _ k m => match m with Ok a => k a | Err e => Err e end.

Definition is_value_error (e : exn) : bool :=
  match e with ValueError _ => true | _ => false end.

(** ** Python string operations *)

Module Py.

(** Characters [str.split()] and [str.strip()] treat as whitespace. *)
Definition is_space (c : ascii) : bool :=
  let n := nat_of_ascii c in
  (((9 <=? n) && (n <=? 13)) || ((28 <=? n) && (n <=? 32))
   || (n =? 133) || (n =? 160))%nat.

Fixpoint elem_char (c : ascii) (cs : string) : bool :=
  match cs with
  | EmptyString => false
  | String d cs' => if ascii_dec c d then true else elem_char c cs'
  end.

(** [s.lstrip(chars)] *)
Fixpoint lstrip (chars s : string) : string :=
  match s with
  | EmptyString => EmptyString
  | String c s' => if elem_char c chars then lstrip chars s' else s
  end.

Fixpoint rev_str (s : string) : string :=
  match s with
  | EmptyString => EmptyString
  | String c s' => (rev_str s' ++ String c EmptyString)%string
  end.

(** [s.rstrip(chars)] *)
Definition rstrip (chars s : string) : string :=
  rev_str (lstrip chars (rev_str s)).

(** [s.strip(chars)] *)
Definition strip (chars s : string) : string := rstrip chars (lstrip chars s).

(** [s.strip()] *)
Fixpoint lstrip_ws (s : string) : string :=
  match s with
  | EmptyString => EmptyString
  | String c s' => if is_space c then lstrip_ws s' else s
  end.
Definition strip_ws (s : string) : string :=
  rev_str (lstrip_ws (rev_str (lstrip_ws s))).

(** [s.split()]: runs of whitespace separate the tokens, and no token is
    empty. *)
Fixpoint split_ws_go (s cur : string) : list string :=
  match s with
  | EmptyString => if String.eqb cur "" then [] else [rev_str cur]
  | String c s' =>
      if is_space c then
        (if String.eqb cur "" then [] else [rev_str cur]) ++ split_ws_go s' ""
      else split_ws_go s' (String c cur)
  end.
Definition split_ws (s : string) : list string := split_ws_go s "".

(** [s.split(sep)] for a non-empty [sep]; [re.split] with a pattern free
    of special characters and groups is the same function.  The fuel is
    never exhausted: every step consumes a character. *)
Fixpoint split_go (fuel : nat) (sep s cur : string) : list string :=
  match fuel with
  | O => [rev_str cur ++ s]
  | S f =>
      match s with
      | EmptyString => [rev_str cur]
      | String c s' =>
          if String.prefix sep s
          then rev_str cur :: split_go f sep (substring (String.length sep) (String.length s) s) ""
          else split_go f sep s' (String c cur)
      end
  end.
Definition split (sep s : string) : list string :=
  split_go (S (String.length s)) sep s "".

(** [sub in s] *)
Fixpoint contains (sub s : string) : bool :=
  String.prefix sub s ||
  match s with
  | EmptyString => false
  | String _ s' => contains sub s'
  end.

(** [s.startswith(p)] *)
Definition startswith (s p : string) : bool := String.prefix p s.

Definition upper_char (c : ascii) : ascii :=
  let n := nat_of_ascii c in
  if ((97 <=? n) && (n <=? 122))%nat then ascii_of_nat (n - 32) else c.

(** [s.upper()] *)
Fixpoint upper (s : string) : string :=
  match s with
  | EmptyString => EmptyString
  | String c s' => String (upper_char c) (upper s')
  end.

Definition is_digit (c : ascii) : bool :=
  let n := nat_of_ascii c in ((48 <=? n) && (n <=? 57))%nat.
Definition digit_val (c : ascii) : Z := Z.of_nat (nat_of_ascii c - 48)%nat.

(** Digits with single underscores between them, as [int()] accepts. *)
Fixpoint digits_go (s : string) (acc : Z) : option Z :=
  match s with
  | EmptyString => Some acc
  | String c s' =>
      if is_digit c then digits_go s' (acc * 10 + digit_val c)%Z
      else if ascii_dec c "_" then
        match s' with
        | String d s'' =>
            if is_digit d then digits_go s'' (acc * 10 + digit_val d)%Z
            else None
        | EmptyString => None
        end
      else None
  end.
Definition digits (s : string) : option Z :=
  match s with
  | String c s' => if is_digit c then digits_go s' (digit_val c) else None
  | EmptyString => None
  end.

(** [int(s)] on a [str]: surrounding whitespace, an optional sign, and
    decimal digits. *)
Definition int (s : string) : result Z :=
  let t := strip_ws s in
  let r := match t with
           | String c t' =>
               if ascii_dec c "+" then digits t'
               else if ascii_dec c "-" then option_map Z.opp (digits t')
               else digits t
           | EmptyString => None
           end in
  match r with Some z => Ok z | None => Err (ValueError InvalidLiteral) end.

(** Tuple unpacking [a, b = xs]. *)
Definition unpack2 (xs : list string) : result (string * string) :=
  match xs with
  | [a; b] => Ok (a, b)
  | _ => Err (ValueError UnpackMismatch)
  end.

(** Indexing [xs[i]]. *)
Definition index (xs : list string) (i : nat) : result string :=
  match xs !! i with Some x => Ok x | None => Err IndexError end.

End Py.

(** ** [class Column] *)

Module Column.

Record t := mk {
  sql : string;
  name : string;
  type : string;
  length : option Z;
  precision : option Z;
  auto : bool;
  nullable : bool
}.

(** [Column.__eq__]: the lengths are dropped when [self.type] is
    ['datetime']. *)
Definition eq (self right : t) : bool :=
  let '(self_length, right_length) :=
    if String.eqb (type self) "datetime" then (None, None)
    else (length self, length right) in
  String.eqb (name self) (name right) &&
  String.eqb (type self) (type right) &&
  bool_decide (self_length = right_length) &&
  bool_decide (precision self = precision right) &&
  Bool.eqb (auto self) (auto right) &&
  Bool.eqb (nullable self) (nullable right).

(** The size part of [Column.parse]: the bare type, [length] and
    [precision] from the type token [parts[1]]. *)
Definition parse_type (ty : string) : result (string * option Z * option Z) :=
  if Py.contains "(" ty then
    '(ty', length) ← Py.unpack2 (Py.split "(" (Py.strip ")" ty));
    if Py.contains "," length then
      '(length', precision) ← Py.unpack2 (Py.split "," length);
      p ← Py.int precision;
      l ← Py.int length';
      mret (ty', Some l, Some p)
    else
      l ← Py.int length;
      mret (ty', Some l, None)
  else mret (ty, None, None).

(** [Column.parse] *)
Definition parse (sql : string) : result t :=
  let nullable := negb (Py.contains "NOT NULL" sql) in
  let parts := Py.split_ws (Py.strip " ," sql) in
  p0 ← Py.index parts 0;
  let name := Py.strip "`" p0 in
  p1 ← Py.index parts 1;
  '(ty, length, precision) ← parse_type p1;
  let auto := existsb (fun part => String.eqb part "AUTO_INCREMENT") (drop 2 parts) in
  mret (mk sql name ty length precision auto nullable).

End Column.

(** ** [class Key] *)

Module Key.

Record t := mk {
  sql : string;
  name : option string
}.

(** [Key.parse]: the [PRIMARY KEY] test has an empty body ([pass]), so the
    name stays [None]. *)
Definition parse (sql : string) : t :=
  let key := mk sql None in
  if Py.startswith sql "PRIMARY KEY" then key else key.

End Key.

(** ** [class Table] *)

Module Table.

Record t := mk {
  sql : string;
  name : string;
  columns : gmap string Column.t;
  keys : gmap (option string) Key.t
}.

(** The [names] property: [set(self.columns.keys())]. *)
Definition names (table : t) : gset string := dom (columns table).

(** [table[key]] *)
Definition getitem (table : t) (key : string) : result Column.t :=
  match columns table !! key with Some c => Ok c | None => Err KeyError end.

(** The regex class [\w] on ASCII. *)
Definition is_word_char (c : ascii) : bool :=
  let n := nat_of_ascii c in
  (((48 <=? n) && (n <=? 57)) || ((65 <=? n) && (n <=? 90))
   || ((97 <=? n) && (n <=? 122)) || (n =? 95))%nat.

(** The longest prefix of word characters, and the rest. *)
Fixpoint span_word (s : string) : string * string :=
  match s with
  | EmptyString => (EmptyString, EmptyString)
  | String c s' =>
      if is_word_char c then let '(w, r) := span_word s' in (String c w, r)
      else (EmptyString, s)
  end.

(** [PAT_TABLE_NAME.match(line)] for [^CREATE TABLE `(\w+)` \($], returning
    [m.group(1)].  [\w+] cannot take the backquote, so its greedy choice is
    the only one; [$] matches at the end or before a final newline. *)
Definition match_table_name (line : string) : option string :=
  if String.prefix "CREATE TABLE `" line then
    let '(w, r) := span_word (substring 14 (String.length line - 14) line) in
    if String.eqb w "" then None
    else if String.eqb r "` (" || String.eqb r "` (
" then Some w
    else None
  else None.

(** The [for line in lines] loop of [Table.parse], threading
    [table.name], [table.columns] and [table.keys].  [add_column] and
    [add_key] insert under the parsed column's and key's name. *)
Fixpoint parse_lines (lines : list string) (name : option string)
    (columns : gmap string Column.t) (keys : gmap (option string) Key.t)
    : result (option string * gmap string Column.t * gmap (option string) Key.t) :=
  match lines with
  | [] => Ok (name, columns, keys)
  | line0 :: rest =>
      let line := Py.strip " ," line0 in
      match match_table_name line with
      | Some n => parse_lines rest (Some n) columns keys
      | None =>
          if Py.startswith line "`" then
            col ← Column.parse line;
            parse_lines rest name (<[Column.name col := col]> columns) keys
          else if Py.contains "KEY" line then
            let key := Key.parse line in
            parse_lines rest name columns (<[Key.name key := key]> keys)
          else if Py.startswith line ")" then Ok (name, columns, keys)
          else parse_lines rest name columns keys
      end
  end.

(** [Table.parse]; [if not table.name] rejects [None] and [""]. *)
Definition parse (sql : string) : result t :=
  '(name, columns, keys) ← parse_lines (Py.split "
" sql) None ∅ ∅;
  match name with
  | None | Some EmptyString => Err (ValueError InvalidTableDefinition)
  | Some n => Ok (mk sql n columns keys)
  end.

End Table.

(** ** [class Schema] *)

Module Schema.

Record t := mk {
  name : string;
  sql : string;
  db : option string;
  version : option string;
  tables : gmap string Table.t
}.

Definition names (schema : t) : gset string := dom (tables schema).

Definition getitem (schema : t) (key : string) : result Table.t :=
  match tables schema !! key with Some t => Ok t | None => Err KeyError end.

(** The [for m in PAT_TABLE_SPLIT.split(sql)] loop: [schema.add(m)], and
    [except ValueError: continue]. *)
Fixpoint add_blocks (blocks : list string) (tables : gmap string Table.t)
    : result (gmap string Table.t) :=
  match blocks with
  | [] => Ok tables
  | m :: ms =>
      match Table.parse m with
      | Ok table => add_blocks ms (<[Table.name table := table]> tables)
      | Err (ValueError _) => add_blocks ms tables
      | Err e => Err e
      end
  end.

Section Parse.

(** The searches for the database name ([PAT_SCHEMA_DB]) and the server
    version ([PAT_SCHEMA_VERSION]) in the dump; no property below depends
    on them. *)
Variable search_db search_version : string -> option string.

(** [Schema.parse], given the path and the text read from it. *)
Definition parse (sql_path sql : string) : result t :=
  tables ← add_blocks (Py.split "

" sql) ∅;
  Ok (mk sql_path sql (search_db sql) (search_version sql) tables).

End Parse.

End Schema.

(** ** [format_table] *)

Definition format_table (name : string) : string :=
  "---- " ++ Py.upper name ++ " ----".

(** ** [class Differences]

    Iterating a Python set is modelled by iterating [elements] of the
    [gset]: some fixed enumeration of the set, each element once.  Output
    is collected in a list: printed lines for [print], rows for
    [pt.writerow]. *)

Module Differences.

(** A [for] loop whose body may raise and emits a list of items. *)
Fixpoint for_each {A B : Type} (f : A -> result (list B)) (xs : list A)
    : result (list B) :=
  match xs with
  | [] => Ok []
  | x :: xs' => ys ← f x; zs ← for_each f xs'; Ok (app ys zs)
  end.

Definition mem (x : string) (s : gset string) : bool := bool_decide (x ∈ s).

(** [sql_drop_tables] *)
Definition sql_drop_tables (src dst : Schema.t) : list string :=
  let src_tables := Schema.names src in
  let dst_tables := Schema.names dst in
  map (fun m_dst => "DROP TABLE `" ++ m_dst ++ "`;")
      (elements (dst_tables ∖ src_tables)).

(** The body of the inner loop of [sql_alter_tables]. *)
Definition alter_column (src_table dst_table : Table.t) (col : string)
    : result (list string) :=
  if mem col (Table.names src_table) && negb (mem col (Table.names dst_table)) then
    c ← Table.getitem src_table col;
    Ok ["ALTER TABLE `" ++ Table.name dst_table ++ "` ADD COLUMN " ++ Column.sql c ++ ";"]
  else if mem col (Table.names dst_table) && negb (mem col (Table.names src_table)) then
    Ok ["ALTER TABLE `" ++ Table.name dst_table ++ "` DROP COLUMN `" ++ col ++ "`;"]
  else
    s ← Table.getitem src_table col;
    d ← Table.getitem dst_table col;
    if negb (Column.eq s d) then
      c ← Table.getitem src_table col;
      Ok ["ALTER TABLE `" ++ Table.name dst_table ++ "` MODIFY COLUMN " ++ Column.sql c ++ ";"]
    else Ok [].

(** [sql_alter_tables] *)
Definition sql_alter_tables (src dst : Schema.t) : result (list string) :=
  let src_tables := Schema.names src in
  let dst_tables := Schema.names dst in
  for_each (fun both =>
      src_table ← Schema.getitem src both;
      dst_table ← Schema.getitem dst both;
      for_each (alter_column src_table dst_table)
        (elements (Table.names src_table ∪ Table.names dst_table)))
    (elements (src_tables ∩ dst_tables)).

(** [==] on two dicts of columns: equal sizes, and every key of the left
    one is in the right one with a value [__eq__] to its own. *)
Definition dict_eq (a b : gmap string Column.t) : bool :=
  Nat.eqb (size a) (size b) &&
  forallb (fun kv => match b !! kv.1 with
                     | Some w => Column.eq kv.2 w
                     | None => false
                     end) (map_to_list a).

Definition row : Type := string * string.

(** The body of the loop of [print_columns]. *)
Definition print_column (src_table dst_table : Table.t) (col : string)
    : result (list row) :=
  let src_cols := Table.names src_table in
  let dst_cols := Table.names dst_table in
  if mem col src_cols && negb (mem col dst_cols) then
    c ← Table.getitem src_table col;
    Ok [(Column.sql c, "")]
  else if mem col dst_cols && negb (mem col src_cols) then
    c ← Table.getitem dst_table col;
    Ok [("", Column.sql c)]
  else
    src_col ← Table.getitem src_table col;
    dst_col ← Table.getitem dst_table col;
    if negb (Column.eq src_col dst_col) then Ok [(Column.sql src_col, Column.sql dst_col)]
    else Ok [].

(** [print_columns] *)
Definition print_columns (src_table dst_table : Table.t) : result (list row) :=
  if dict_eq (Table.columns src_table) (Table.columns dst_table) then Ok []
  else
    let src_cols := Table.names src_table in
    let dst_cols := Table.names dst_table in
    rows ← for_each (print_column src_table dst_table) (elements (src_cols ∪ dst_cols));
    Ok ((format_table (Table.name src_table), format_table (Table.name dst_table)) :: rows).

(** [str(x)] of an optional string: [None] prints as ["None"]. *)
Definition py_str (x : option string) : string :=
  match x with Some s => s | None => "None" end.

Definition header (s : Schema.t) : string :=
  Schema.name s ++ ": " ++ py_str (Schema.db s) ++ " (" ++ py_str (Schema.version s) ++ ")".

(** The body of the loop of [print_tables]. *)
Definition print_table (src dst : Schema.t) (table : string) : result (list row) :=
  let src_tables := Schema.names src in
  let dst_tables := Schema.names dst in
  if mem table src_tables && negb (mem table dst_tables) then
    Ok [("", format_table table)]
  else if mem table dst_tables && negb (mem table src_tables) then
    Ok [(format_table table, "")]
  else
    src_table ← Schema.getitem src table;
    dst_table ← Schema.getitem dst table;
    print_columns src_table dst_table.

(** [print_tables]: the header row written by [pt.writeheader] and the
    rows written by [pt.writerow]. *)
Definition print_tables (src dst : Schema.t) : result (row * list row) :=
  let src_tables := Schema.names src in
  let dst_tables := Schema.names dst in
  rows ← for_each (print_table src dst) (elements (src_tables ∪ dst_tables));
  Ok ((header src, header dst), rows).

End Differences.

(** ** [main]

    The dumps are given by their paths and the text read from them;
    failures to open a file are not modelled.  [docopt] has produced the
    options. *)

Module Main.

Record opts := mk_opts {
  keys : bool;          (* --keys *)
  constraints : bool;   (* --constraints *)
  collation : bool;     (* --collation *)
  drop_tables : bool;   (* --drop-tables *)
  alter_tables : bool   (* --alter-tables *)
}.

(** What [main] writes: the grid of [print_tables], or printed lines. *)
Inductive output :=
| Grid (header : Differences.row) (rows : list Differences.row)
| Statements (lines : list string).

Section Main.

Variable search_db search_version : string -> option string.

(** [main]: the comparison flags only reach [Differences], which never
    reads them. *)
Definition main (o : opts) (src_path src_sql dst_path dst_sql : string) : result output :=
  schemaA ← Schema.parse search_db search_version src_path src_sql;
  schemaB ← Schema.parse search_db search_version dst_path dst_sql;
  if negb (drop_tables o) && negb (alter_tables o) then
    '(h, rows) ← Differences.print_tables schemaA schemaB;
    Ok (Grid h rows)
  else
    let header := ["/* Generated by sqldiff. */";
                   "/* To be run on " ++ Schema.name schemaB ++ " */"] in
    let drops := if drop_tables o then Differences.sql_drop_tables schemaA schemaB else [] in
    alters ← (if alter_tables o then Differences.sql_alter_tables schemaA schemaB else Ok []);
    Ok (Statements (app header (app drops alters))).

End Main.

End Main.

(** * Properties *)

(** ** Column equality *)

Lemma column_eq_true_iff (a b : Column.t) :
  Column.eq a b = true <->
  Column.name a = Column.name b /\ Column.type a = Column.type b /\
  (Column.type a <> "datetime" -> Column.length a = Column.length b) /\
  Column.precision a = Column.precision b /\ Column.auto a = Column.auto b /\
  Column.nullable a = Column.nullable b.
Proof.
  unfold Column.eq.
  destruct (String.eqb_spec (Column.type a) "datetime") as [Hd|Hd];
    rewrite !andb_true_iff, !String.eqb_eq, !bool_decide_eq_true, !Bool.eqb_true_iff;
    intuition congruence.
Qed.

(** C3: Column equality is reflexive and symmetric; it holds exactly when
    name, type, precision, auto-increment flag and nullability match and,
    unless the type is ['datetime'], the lengths match too; for a
    non-datetime type it is the conjunction of all six; two datetime
    columns that differ only in their length (and raw text) are equal. *)
Theorem column_eq_refl_sym_datetime :
  forall a b : Column.t,
  Column.eq a a = true /\
  Column.eq a b = Column.eq b a /\
  (Column.eq a b = true <->
     Column.name a = Column.name b /\ Column.type a = Column.type b /\
     (Column.type a <> "datetime" -> Column.length a = Column.length b) /\
     Column.precision a = Column.precision b /\ Column.auto a = Column.auto b /\
     Column.nullable a = Column.nullable b) /\
  (Column.type a <> "datetime" ->
   (Column.eq a b = true <->
     Column.name a = Column.name b /\ Column.type a = Column.type b /\
     Column.length a = Column.length b /\
     Column.precision a = Column.precision b /\ Column.auto a = Column.auto b /\
     Column.nullable a = Column.nullable b)) /\
  (Column.type a = "datetime" -> Column.type b = "datetime" ->
   Column.name a = Column.name b -> Column.precision a = Column.precision b ->
   Column.auto a = Column.auto b -> Column.nullable a = Column.nullable b ->
   Column.eq a b = true).
Proof.
  intros a b. split; [|split; [|split; [|split]]].
  - apply column_eq_true_iff. intuition.
  - apply Bool.eq_iff_eq_true. rewrite !column_eq_true_iff. intuition congruence.
  - apply column_eq_true_iff.
  - intros Hd. rewrite column_eq_true_iff. intuition.
  - intros Ha Hb Hn Hp Hau Hnu. apply column_eq_true_iff. intuition congruence.
Qed.

Definition dt_a : Column.t := Column.mk "`t` datetime(3) NOT NULL" "t" "datetime" (Some 3%Z) None false false.
Definition dt_b : Column.t := Column.mk "`t` datetime(6) NOT NULL" "t" "datetime" (Some 6%Z) None false false.

Lemma column_eq_refl_sym_datetime_witness :
  "datetime" = "datetime" /\ Column.eq dt_a dt_b = true.
Proof.
  split; [reflexivity|].
  apply (proj2 (proj2 (proj2 (proj2 (column_eq_refl_sym_datetime dt_a dt_b)))));
    reflexivity.
Defined.

(** ** Column parsing on the test rows *)

(** C7: the three rows of [COLS] in [test.py] parse to the expected
    fields (the raw text is kept as [sql]). *)
Theorem column_parse_test_rows :
  Column.parse "`foo` int(11) NOT NULL AUTO_INCREMENT" =
    Ok (Column.mk "`foo` int(11) NOT NULL AUTO_INCREMENT" "foo" "int" (Some 11%Z) None true false) /\
  Column.parse "`remote_addr_three` smallint(5) unsigned DEFAULT NULL" =
    Ok (Column.mk "`remote_addr_three` smallint(5) unsigned DEFAULT NULL"
                  "remote_addr_three" "smallint" (Some 5%Z) None false true) /\
  Column.parse "`score` decimal(5,2) DEFAULT NULL" =
    Ok (Column.mk "`score` decimal(5,2) DEFAULT NULL" "score" "decimal" (Some 5%Z) (Some 2%Z) false true).
Proof. split; [|split]; vm_compute; reflexivity. Qed.

(** ** The comparison grid on a table present on one side *)

Definition no_search (_ : string) : option string := None.

Definition users_dump : string := "CREATE TABLE `users` (
  `id` int(11) NOT NULL AUTO_INCREMENT
) ENGINE=InnoDB;".

(** C1 (evaluated at the failing input): a dump with table [users] against
    a dump with no table.  With [users] only in the source, the banner is
    written in the right (destination) cell; with [users] only in the
    destination, in the left (source) cell. *)
Theorem print_tables_one_sided_banner :
  match Schema.parse no_search no_search "src.sql" users_dump,
        Schema.parse no_search no_search "dst.sql" "-- empty dump" with
  | Ok src, Ok dst =>
      Differences.print_tables src dst =
        Ok (("src.sql: None (None)", "dst.sql: None (None)"), [("", "---- USERS ----")]) /\
      Differences.print_tables dst src =
        Ok (("dst.sql: None (None)", "src.sql: None (None)"), [("---- USERS ----", "")])
  | _, _ => False
  end.
Proof. vm_compute. split; reflexivity. Qed.

(** ** Keys *)

Lemma key_parse_name (s : string) : Key.name (Key.parse s) = None.
Proof. unfold Key.parse. destruct (Py.startswith s "PRIMARY KEY"); reflexivity. Qed.

Lemma parse_lines_keys_dom (lines : list string) name columns keys r :
  Table.parse_lines lines name columns keys = Ok r ->
  dom keys ⊆ {[None]} -> dom r.2 ⊆ {[None]}.
Proof.
  revert name columns keys.
  induction lines as [|line lines IH]; intros name columns keys Hp Hk; simpl in Hp.
  - injection Hp as <-. exact Hk.
  - destruct (Table.match_table_name _); [eapply IH; eauto|].
    destruct (Py.startswith _ "`").
    + unfold mbind, result_bind in Hp.
      destruct (Column.parse _); [eapply IH; eauto|discriminate].
    + destruct (Py.contains "KEY" _).
      * eapply IH; [exact Hp|]. rewrite dom_insert_L, key_parse_name. set_solver.
      * destruct (Py.startswith _ ")"); [injection Hp as <-; exact Hk|].
        eapply IH; eauto.
Qed.

(** C10: [Key.parse] never fails and leaves the name unset, so every key
    is stored under [None] and a parsed table holds at most one key. *)
Theorem key_parse_keys_at_most_one :
  (forall s, Key.name (Key.parse s) = None) /\
  (forall (sql : string) (t : Table.t), Table.parse sql = Ok t -> size (Table.keys t) <= 1).
Proof.
  split.
  - exact key_parse_name.
  - intros sql t Hp. unfold Table.parse, mbind, result_bind in Hp.
    destruct (Table.parse_lines _ _ _ _) as [[[n cs] ks]|] eqn:Hl; [|discriminate].
    assert (Hd : dom ks ⊆ {[None]}).
    { apply (parse_lines_keys_dom _ _ _ _ _ Hl). rewrite dom_empty_L. set_solver. }
    destruct n as [[|c n]|]; try discriminate.
    injection Hp as <-. simpl.
    rewrite <- size_dom. etrans; [apply subseteq_size, Hd|]. rewrite size_singleton. lia.
Qed.

Definition two_keys_table : string := "CREATE TABLE `t` (
  `id` int(11) NOT NULL,
  PRIMARY KEY (`id`),
  KEY `k1` (`id`),
  UNIQUE KEY `k2` (`id`)
) ENGINE=InnoDB;".

Lemma key_parse_keys_at_most_one_witness :
  match Table.parse two_keys_table with
  | Ok t => size (Table.keys t) <= 1
  | Err _ => False
  end.
Proof.
  destruct (Table.parse two_keys_table) as [t|e] eqn:Hp.
  - exact (proj2 key_parse_keys_at_most_one two_keys_table t Hp).
  - vm_compute in Hp. discriminate.
Defined.

(** ** The loops of the diff engine *)

Lemma column_eq_refl (c : Column.t) : Column.eq c c = true.
Proof. apply column_eq_true_iff. intuition. Qed.

Lemma for_each_flat_map {A B : Type} (f : A -> result (list B)) (g : A -> list B)
    (xs : list A) :
  (forall x, x ∈ xs -> f x = Ok (g x)) ->
  Differences.for_each f xs = Ok (flat_map g xs).
Proof.
  induction xs as [|x xs IH]; intros Hf; simpl; [reflexivity|].
  rewrite (Hf x) by set_solver. simpl.
  rewrite IH by (intros y Hy; apply Hf; set_solver). reflexivity.
Qed.

Lemma for_each_nil {A B : Type} (f : A -> result (list B)) (xs : list A) :
  (forall x, x ∈ xs -> f x = Ok []) -> Differences.for_each f xs = Ok [].
Proof.
  intros Hf. rewrite (for_each_flat_map f (fun _ => [])) by exact Hf.
  clear Hf. induction xs; simpl; [reflexivity|]. exact IHxs.
Qed.

Lemma mem_true (x : string) (s : gset string) : x ∈ s -> Differences.mem x s = true.
Proof. intros H. unfold Differences.mem. by apply bool_decide_eq_true_2. Qed.

Lemma mem_false (x : string) (s : gset string) : x ∉ s -> Differences.mem x s = false.
Proof. intros H. unfold Differences.mem. by apply bool_decide_eq_false_2. Qed.

Lemma schema_getitem_some (s : Schema.t) (k : string) (t : Table.t) :
  Schema.tables s !! k = Some t -> Schema.getitem s k = Ok t.
Proof. unfold Schema.getitem. by intros ->. Qed.

Lemma table_getitem_some (t : Table.t) (k : string) (c : Column.t) :
  Table.columns t !! k = Some c -> Table.getitem t k = Ok c.
Proof. unfold Table.getitem. by intros ->. Qed.

Lemma dict_eq_refl (m : gmap string Column.t) : Differences.dict_eq m m = true.
Proof.
  unfold Differences.dict_eq. rewrite Nat.eqb_refl. simpl.
  apply forallb_forall. intros [k v] Hin.
  apply list_elem_of_In, elem_of_map_to_list in Hin. simpl. rewrite Hin.
  apply column_eq_refl.
Qed.

(** C4: diffing a schema against itself writes only the header in the
    comparison grid, and no statement in the drop-tables and alter-tables
    modes. *)
Theorem diff_self_empty :
  forall s : Schema.t,
  Differences.print_tables s s = Ok ((Differences.header s, Differences.header s), []) /\
  Differences.sql_drop_tables s s = [] /\
  Differences.sql_alter_tables s s = Ok [].
Proof.
  intros s. split; [|split].
  - unfold Differences.print_tables.
    rewrite (for_each_nil (Differences.print_table s s)); [reflexivity|].
    intros x Hx. apply elem_of_elements in Hx.
    assert (HxS : x ∈ Schema.names s) by set_solver.
    unfold Differences.print_table. rewrite (mem_true _ _ HxS). simpl.
    unfold Schema.names in HxS. apply elem_of_dom in HxS as [t Ht].
    rewrite (schema_getitem_some _ _ _ Ht). simpl.
    unfold Differences.print_columns. by rewrite dict_eq_refl.
  - unfold Differences.sql_drop_tables. by rewrite difference_diag_L, elements_empty.
  - unfold Differences.sql_alter_tables.
    apply for_each_nil. intros x Hx. apply elem_of_elements in Hx.
    assert (HxS : x ∈ Schema.names s) by set_solver.
    unfold Schema.names in HxS. apply elem_of_dom in HxS as [t Ht].
    rewrite (schema_getitem_some _ _ _ Ht). simpl.
    apply for_each_nil. intros col Hc. apply elem_of_elements in Hc.
    assert (HcT : col ∈ Table.names t) by set_solver.
    unfold Differences.alter_column. rewrite (mem_true _ _ HcT). simpl.
    unfold Table.names in HcT. apply elem_of_dom in HcT as [c Hcc].
    rewrite (table_getitem_some _ _ _ Hcc). simpl.
    by rewrite column_eq_refl.
Qed.

(** ** Alter-tables mode *)

(** The statement the specification requires for one column of a table
    present in both schemas: ADD for a source-only column, DROP for a
    destination-only column, MODIFY for a column on both sides that is not
    equal, and nothing otherwise. *)
Definition alter_statement_spec (src_table dst_table : Table.t) (col : string) : list string :=
  match Table.columns src_table !! col, Table.columns dst_table !! col with
  | Some s, None =>
      ["ALTER TABLE `" ++ Table.name dst_table ++ "` ADD COLUMN " ++ Column.sql s ++ ";"]
  | None, Some _ =>
      ["ALTER TABLE `" ++ Table.name dst_table ++ "` DROP COLUMN `" ++ col ++ "`;"]
  | Some s, Some d =>
      if Column.eq s d then []
      else ["ALTER TABLE `" ++ Table.name dst_table ++ "` MODIFY COLUMN " ++ Column.sql s ++ ";"]
  | None, None => []
  end.

(** C5: alter-tables mode never fails, visits only the tables present in
    both schemas, and for each of them and each column name of the union
    of their column sets prints exactly the statement of
    [alter_statement_spec]. *)
Theorem sql_alter_tables_statements :
  forall src dst : Schema.t,
  Differences.sql_alter_tables src dst =
    Ok (flat_map (fun both =>
          match Schema.tables src !! both, Schema.tables dst !! both with
          | Some src_table, Some dst_table =>
              flat_map (alter_statement_spec src_table dst_table)
                (elements (Table.names src_table ∪ Table.names dst_table))
          | _, _ => []
          end)
        (elements (Schema.names src ∩ Schema.names dst))).
Proof.
  intros src dst. unfold Differences.sql_alter_tables.
  apply for_each_flat_map. intros both Hb. apply elem_of_elements in Hb.
  apply elem_of_intersection in Hb as [Hs Hd].
  unfold Schema.names in Hs, Hd.
  apply elem_of_dom in Hs as [st Hst]. apply elem_of_dom in Hd as [dt Hdt].
  rewrite (schema_getitem_some _ _ _ Hst), (schema_getitem_some _ _ _ Hdt), Hst, Hdt. simpl.
  apply for_each_flat_map. intros col Hc. apply elem_of_elements, elem_of_union in Hc.
  unfold Differences.alter_column, alter_statement_spec.
  destruct (Table.columns st !! col) as [c|] eqn:Hsc;
    destruct (Table.columns dt !! col) as [d|] eqn:Hdc.
  - assert (Hs : col ∈ Table.names st) by (apply elem_of_dom; eauto).
    assert (Hd : col ∈ Table.names dt) by (apply elem_of_dom; eauto).
    rewrite (mem_true _ _ Hs), (mem_true _ _ Hd). simpl.
    rewrite (table_getitem_some _ _ _ Hsc), (table_getitem_some _ _ _ Hdc). simpl.
    destruct (Column.eq c d); reflexivity.
  - assert (Hs : col ∈ Table.names st) by (apply elem_of_dom; eauto).
    assert (Hd : col ∉ Table.names dt) by (unfold Table.names; rewrite elem_of_dom, Hdc; apply is_Some_None).
    rewrite (mem_true _ _ Hs), (mem_false _ _ Hd). simpl.
    rewrite (table_getitem_some _ _ _ Hsc). reflexivity.
  - assert (Hs : col ∉ Table.names st) by (unfold Table.names; rewrite elem_of_dom, Hsc; apply is_Some_None).
    assert (Hd : col ∈ Table.names dt) by (apply elem_of_dom; eauto).
    rewrite (mem_false _ _ Hs), (mem_true _ _ Hd). reflexivity.
  - exfalso. unfold Table.names in Hc.
    destruct Hc as [Hc|Hc]; apply elem_of_dom in Hc as [? ?]; congruence.
Qed.

(** ** Drop-tables mode *)

Lemma string_length_app (a b : string) :
  String.length (a ++ b) = String.length a + String.length b.
Proof. induction a; simpl; [reflexivity|]. by rewrite IHa. Qed.

Lemma string_app_suffix_inj (a b s : string) : (a ++ s = b ++ s)%string -> a = b.
Proof.
  revert b. induction a as [|c a IH]; intros [|d b] H; simpl in H.
  - reflexivity.
  - apply (f_equal String.length) in H. simpl in H.
    rewrite !string_length_app in H. simpl in H. lia.
  - apply (f_equal String.length) in H. simpl in H.
    rewrite !string_length_app in H. simpl in H. lia.
  - injection H as -> H. f_equal. by apply IH.
Qed.

Lemma drop_statement_inj (a b : string) :
  ("DROP TABLE `" ++ a ++ "`;")%string = ("DROP TABLE `" ++ b ++ "`;")%string -> a = b.
Proof.
  intros H. apply (inj (String.append "DROP TABLE `")) in H.
  exact (string_app_suffix_inj _ _ _ H).
Qed.

Lemma count_occ_map_inj (f : string -> string) (l : list string) (x : string) :
  (forall a b, f a = f b -> a = b) ->
  count_occ string_dec (map f l) (f x) = count_occ string_dec l x.
Proof.
  intros Hf. induction l as [|y l IH]; simpl; [reflexivity|].
  destruct (string_dec (f y) (f x)) as [E|E], (string_dec y x) as [E'|E'].
  - by rewrite IH.
  - by apply Hf in E.
  - subst. congruence.
  - exact IH.
Qed.

Lemma count_occ_elements (X : gset string) (x : string) :
  count_occ string_dec (elements X) x = if bool_decide (x ∈ X) then 1 else 0.
Proof.
  pose proof (proj1 (NoDup_count_occ' string_dec (elements X))) as Hnd.
  assert (Hnd' : List.NoDup (elements X)).
  { apply NoDup_ListNoDup, NoDup_elements. }
  case_bool_decide as Hx.
  - apply (Hnd Hnd'). apply list_elem_of_In, elem_of_elements, Hx.
  - apply count_occ_not_In. rewrite <- list_elem_of_In, elem_of_elements. exact Hx.
Qed.

(** C6: drop-tables mode prints [DROP TABLE `n`;] exactly once for each
    table name [n] of the destination that is not in the source, and
    every statement it prints is of this form for such a name. *)
Theorem sql_drop_tables_exact :
  forall (src dst : Schema.t) (n : string),
  count_occ string_dec (Differences.sql_drop_tables src dst) ("DROP TABLE `" ++ n ++ "`;")
    = (if bool_decide (n ∈ Schema.names dst /\ n ∉ Schema.names src) then 1 else 0) /\
  (forall stmt, In stmt (Differences.sql_drop_tables src dst) ->
     exists m, (m ∈ Schema.names dst /\ (m ∉ Schema.names src) /\
                stmt = ("DROP TABLE `" ++ m ++ "`;")%string)).
Proof.
  intros src dst n. unfold Differences.sql_drop_tables. split.
  - rewrite (count_occ_map_inj (fun m => "DROP TABLE `" ++ m ++ "`;")%string)
      by exact drop_statement_inj.
    rewrite count_occ_elements.
    destruct (bool_decide_reflect (n ∈ Schema.names dst ∖ Schema.names src)) as [H|H];
      rewrite elem_of_difference in H; by case_bool_decide.
  - intros stmt Hin. apply in_map_iff in Hin as [m [<- Hm]].
    apply list_elem_of_In, elem_of_elements, elem_of_difference in Hm as [Hd Hs].
    by exists m.
Qed.

(** The dumps of the scenario of the specification. *)
Definition scenario_src_dump : string := "-- MySQL dump

CREATE TABLE `users` (
  `id` int(11) NOT NULL AUTO_INCREMENT,
  `name` varchar(20) DEFAULT NULL,
  PRIMARY KEY (`id`)
) ENGINE=InnoDB;".

Definition scenario_dst_dump : string := "-- MySQL dump

CREATE TABLE `users` (
  `id` int(11) NOT NULL AUTO_INCREMENT,
  `email` varchar(20) DEFAULT NULL,
  PRIMARY KEY (`id`)
) ENGINE=InnoDB;

CREATE TABLE `legacy_logs` (
  `id` int(11) NOT NULL
) ENGINE=InnoDB;".

Definition parse_or_empty (path sql : string) : Schema.t :=
  match Schema.parse no_search no_search path sql with
  | Ok s => s
  | Err _ => Schema.mk path sql None None ∅
  end.

Definition scenario_src : Schema.t := parse_or_empty "src.sql" scenario_src_dump.
Definition scenario_dst : Schema.t := parse_or_empty "dst.sql" scenario_dst_dump.

Lemma sql_drop_tables_exact_witness :
  count_occ string_dec (Differences.sql_drop_tables scenario_src scenario_dst)
    ("DROP TABLE `" ++ "legacy_logs" ++ "`;") = 1 /\
  (forall stmt, In stmt (Differences.sql_drop_tables scenario_src scenario_dst) ->
     exists m, (m ∈ Schema.names scenario_dst /\ (m ∉ Schema.names scenario_src) /\
                stmt = ("DROP TABLE `" ++ m ++ "`;")%string)).
Proof.
  split.
  - rewrite (proj1 (sql_drop_tables_exact scenario_src scenario_dst "legacy_logs")).
    vm_compute. reflexivity.
  - exact (proj2 (sql_drop_tables_exact scenario_src scenario_dst "legacy_logs")).
Defined.

(** ** Failures of [Column.parse] *)

Definition is_ok {A : Type} (r : result A) : bool :=
  match r with Ok _ => true | Err _ => false end.

(** The words of the specification for the size of a type token: if it
    has a [(], it must split (after stripping [)]) into a bare type and a
    size expression, which is one integer or, when it has a comma, two
    comma-separated integers. *)
Definition size_ok (ty : string) : bool :=
  if Py.contains "(" ty then
    match Py.split "(" (Py.strip ")" ty) with
    | [_; size] =>
        if Py.contains "," size then
          match Py.split "," size with
          | [l; p] => is_ok (Py.int l) && is_ok (Py.int p)
          | _ => false
          end
        else is_ok (Py.int size)
    | _ => false
    end
  else true.

(** C8 (counterexample): the line [`a` ,] has two whitespace-separated
    tokens and its type token [,] carries no parenthesized size, yet
    [Column.parse] fails: the trailing comma is stripped before the line
    is split. *)
Lemma column_parse_two_tokens_fails :
  List.length (Py.split_ws "`a` ,") = 2 /\
  Py.contains "(" (nth 1 (Py.split_ws "`a` ,") "") = false /\
  Column.parse "`a` ," = Err IndexError.
Proof. vm_compute. repeat split. Qed.

(** C8 (amended): [Column.parse] fails exactly when the line, stripped of
    leading and trailing spaces and commas, has fewer than two
    whitespace-separated tokens, or its second token fails [size_ok]. *)
Theorem column_parse_fails_iff :
  forall line : string,
  is_ok (Column.parse line) =
    let tokens := Py.split_ws (Py.strip " ," line) in
    (2 <=? List.length tokens)%nat && size_ok (nth 1 tokens "").
Proof.
  intros line. unfold Column.parse, Py.index.
  destruct (Py.split_ws (Py.strip " ," line)) as [|t0 [|t1 rest]]; simpl; [reflexivity|reflexivity|].
  unfold Column.parse_type, size_ok.
  destruct (Py.contains "(" t1); simpl; [|reflexivity].
  destruct (Py.split "(" (Py.strip ")" t1)) as [|ty [|size [|? ?]]]; simpl; try reflexivity.
  destruct (Py.contains "," size); simpl.
  - destruct (Py.split "," size) as [|l [|p [|? ?]]]; simpl; try reflexivity.
    destruct (Py.int p), (Py.int l); reflexivity.
  - destruct (Py.int size); reflexivity.
Qed.

(** ** Failures of [Table.parse] *)

(** A stripped line that [Table.parse] hands to [Column.parse]. *)
Definition is_column_line (line : string) : bool :=
  match Table.match_table_name line with
  | Some _ => false
  | None => Py.startswith line "`"
  end.

(** A stripped line on which [Table.parse] leaves its loop ([break]). *)
Definition is_closing_line (line : string) : bool :=
  match Table.match_table_name line with
  | Some _ => false
  | None => negb (Py.startswith line "`") && negb (Py.contains "KEY" line)
            && Py.startswith line ")"
  end.

(** The stripped lines [Table.parse] examines: those before the first
    closing line. *)
Fixpoint scanned_lines (lines : list string) : list string :=
  match lines with
  | [] => []
  | l :: ls =>
      let line := Py.strip " ," l in
      if is_closing_line line then [] else line :: scanned_lines ls
  end.

Lemma match_table_name_nonempty (line w : string) :
  Table.match_table_name line = Some w -> w <> "".
Proof.
  unfold Table.match_table_name.
  destruct (String.prefix _ _); [|discriminate].
  destruct (Table.span_word _) as [w' r].
  destruct (String.eqb_spec w' ""); [discriminate|].
  destruct (_ || _); [|discriminate]. congruence.
Qed.

Lemma py_int_err (s : string) (e : exn) :
  Py.int s = Err e -> e = ValueError InvalidLiteral.
Proof.
  unfold Py.int. destruct (Py.strip_ws s) as [|c t]; [congruence|].
  destruct (ascii_dec c "+"); [|destruct (ascii_dec c "-")];
    [destruct (Py.digits t)|destruct (Py.digits t)|destruct (Py.digits (String c t))];
    simpl; congruence.
Qed.

Lemma column_parse_err (line : string) (e : exn) :
  Column.parse line = Err e ->
  e = IndexError \/ e = ValueError InvalidLiteral \/ e = ValueError UnpackMismatch.
Proof.
  unfold Column.parse, Py.index.
  destruct (Py.split_ws _) as [|t0 [|t1 rest]]; simpl; try (intros [= <-]; auto).
  unfold Column.parse_type.
  destruct (Py.contains "(" t1); simpl; [|discriminate].
  unfold Py.unpack2.
  destruct (Py.split "(" _) as [|ty [|size [|? ?]]]; simpl; try (intros [= <-]; auto).
  destruct (Py.contains "," size); simpl.
  - destruct (Py.split "," size) as [|l [|p [|? ?]]]; simpl; try (intros [= <-]; auto).
    destruct (Py.int p) as [?|e1] eqn:E1; simpl;
      [|intros [= <-]; apply py_int_err in E1; auto].
    destruct (Py.int l) as [?|e2] eqn:E2; simpl;
      [discriminate|intros [= <-]; apply py_int_err in E2; auto].
  - destruct (Py.int size) as [?|e1] eqn:E1; simpl;
      [discriminate|intros [= <-]; apply py_int_err in E1; auto].
Qed.

Lemma column_parse_index_error (line : string) :
  Column.parse line = Err IndexError ->
  (List.length (Py.split_ws (Py.strip " ," line)) < 2)%nat.
Proof.
  unfold Column.parse, Py.index.
  destruct (Py.split_ws _) as [|t0 [|t1 rest]]; simpl; try lia.
  unfold Column.parse_type.
  destruct (Py.contains "(" t1); simpl; [|discriminate].
  unfold Py.unpack2.
  destruct (Py.split "(" _) as [|ty [|size [|? ?]]]; simpl; try discriminate.
  destruct (Py.contains "," size); simpl.
  - destruct (Py.split "," size) as [|l [|p [|? ?]]]; simpl; try discriminate.
    destruct (Py.int p) as [?|e1] eqn:E1; simpl;
      [|intros [= ->]; apply py_int_err in E1; discriminate].
    destruct (Py.int l) as [?|e2] eqn:E2; simpl;
      [discriminate|intros [= ->]; apply py_int_err in E2; discriminate].
  - destruct (Py.int size) as [?|e1] eqn:E1; simpl;
      [discriminate|intros [= ->]; apply py_int_err in E1; discriminate].
Qed.

(** One line of the loop that keeps the name and goes on with the rest. *)
Ltac loop_step IH Hp Hcol :=
  let Hc' := fresh "Hc" in let Hn := fresh "Hn" in let He := fresh "He" in
  destruct (IH _ _ _ Hp) as (Hc' & Hn & He);
  split; [constructor; [rewrite Hcol; intros ?; discriminate|exact Hc']|];
  split; [|exact He];
  rewrite Hn; split; [intros [? ?]; split; [done|by constructor]|];
  let Hf := fresh in intros [? Hf]; inversion Hf; done.

Lemma parse_lines_ok (lines : list string) name columns keys name' columns' keys' :
  Table.parse_lines lines name columns keys = Ok (name', columns', keys') ->
  Forall (fun line => is_column_line line = true -> is_ok (Column.parse line) = true)
    (scanned_lines lines) /\
  (name' = None <-> name = None /\
     Forall (fun line => Table.match_table_name line = None) (scanned_lines lines)) /\
  (name' = Some "" -> name = Some "").
Proof.
  revert name columns keys.
  induction lines as [|l lines IH]; intros name columns keys Hp; simpl in Hp.
  - injection Hp as -> -> ->. simpl. intuition.
  - simpl scanned_lines. set (line := Py.strip " ," l) in *.
    destruct (Table.match_table_name line) as [w|] eqn:Hm.
    + assert (Hcl : is_closing_line line = false)
        by (unfold is_closing_line; rewrite Hm; reflexivity).
      assert (Hcol : is_column_line line = false)
        by (unfold is_column_line; rewrite Hm; reflexivity).
      rewrite Hcl. destruct (IH _ _ _ Hp) as (Hc & Hn & He).
      split; [constructor; [rewrite Hcol; intros ?; discriminate|exact Hc]|].
      split.
      * split; [intros H; apply Hn in H as [H _]; discriminate|].
        intros [_ H]. inversion H; congruence.
      * intros H. apply He in H. injection H as ->.
        exfalso. exact (match_table_name_nonempty _ _ Hm eq_refl).
    + destruct (Py.startswith line "`") eqn:Hb.
      * assert (Hcl : is_closing_line line = false)
          by (unfold is_closing_line; rewrite Hm, Hb; reflexivity).
        assert (Hcol : is_column_line line = true)
          by (unfold is_column_line; rewrite Hm, Hb; reflexivity).
        rewrite Hcl. unfold mbind, result_bind in Hp.
        destruct (Column.parse line) eqn:Hc; [|discriminate].
        destruct (IH _ _ _ Hp) as (Hc' & Hn & He).
        split; [constructor; [intros _; rewrite Hc; reflexivity|exact Hc']|].
        split; [|exact He].
        rewrite Hn. split; [intros [? ?]; split; [done|by constructor]|].
        intros [? H]. inversion H. done.
      * assert (Hcol : is_column_line line = false)
          by (unfold is_column_line; rewrite Hm, Hb; reflexivity).
        destruct (Py.contains "KEY" line) eqn:Hk.
        -- assert (Hcl : is_closing_line line = false)
             by (unfold is_closing_line; rewrite Hm, Hb, Hk; reflexivity).
           rewrite Hcl. loop_step IH Hp Hcol.
        -- destruct (Py.startswith line ")") eqn:Hr.
           ++ assert (Hcl : is_closing_line line = true)
                by (unfold is_closing_line; rewrite Hm, Hb, Hk, Hr; reflexivity).
              rewrite Hcl. injection Hp as -> -> ->. intuition.
           ++ assert (Hcl : is_closing_line line = false)
                by (unfold is_closing_line; rewrite Hm, Hb, Hk, Hr; reflexivity).
              rewrite Hcl. loop_step IH Hp Hcol.
Qed.

Lemma parse_lines_err (lines : list string) name columns keys e :
  Table.parse_lines lines name columns keys = Err e ->
  exists line, In line (scanned_lines lines) /\ is_column_line line = true /\
               Column.parse line = Err e.
Proof.
  revert name columns keys.
  induction lines as [|l lines IH]; intros name columns keys Hp; simpl in Hp; [discriminate|].
  simpl scanned_lines. set (line := Py.strip " ," l) in *.
  destruct (Table.match_table_name line) as [w|] eqn:Hm.
  - assert (Hcl : is_closing_line line = false)
      by (unfold is_closing_line; rewrite Hm; reflexivity).
    rewrite Hcl. destruct (IH _ _ _ Hp) as (x & Hx & ?). exists x. simpl. auto.
  - destruct (Py.startswith line "`") eqn:Hb.
    + assert (Hcl : is_closing_line line = false)
        by (unfold is_closing_line; rewrite Hm, Hb; reflexivity).
      rewrite Hcl. unfold mbind, result_bind in Hp.
      destruct (Column.parse line) eqn:Hc.
      * destruct (IH _ _ _ Hp) as (x & Hx & ?). exists x. simpl. auto.
      * injection Hp as ->. exists line. simpl.
        unfold is_column_line. rewrite Hm. auto.
    + destruct (Py.contains "KEY" line) eqn:Hk.
      * assert (Hcl : is_closing_line line = false)
          by (unfold is_closing_line; rewrite Hm, Hb, Hk; reflexivity).
        rewrite Hcl. destruct (IH _ _ _ Hp) as (x & Hx & ?). exists x. simpl. auto.
      * destruct (Py.startswith line ")") eqn:Hr; [discriminate|].
        assert (Hcl : is_closing_line line = false)
          by (unfold is_closing_line; rewrite Hm, Hb, Hk, Hr; reflexivity).
        rewrite Hcl. destruct (IH _ _ _ Hp) as (x & Hx & ?). exists x. simpl. auto.
Qed.

Definition close_then_header : string := ")
CREATE TABLE `t` (".

(** C9 (counterexample): a block whose second line is a table-name line
    that matches the pattern, after a first line starting with [)]; the
    loop stops at [)], so no name is recorded and the parse fails. *)
Lemma table_parse_header_after_close :
  Table.match_table_name "CREATE TABLE `t` (" = Some "t" /\
  In "CREATE TABLE `t` (" (Py.split "
" close_then_header) /\
  Table.parse close_then_header = Err (ValueError InvalidTableDefinition).
Proof. vm_compute. split; [reflexivity|split; [right; left; reflexivity|reflexivity]]. Qed.

(** C9 (amended): [Table.parse] fails with the invalid-definition error
    exactly when every column line it examines parses and none of the
    lines it examines (the stripped lines before the first line that
    starts with [)] and is neither a column nor a [KEY] line) matches the
    table-name pattern; a table it returns has a non-empty name. *)
Theorem table_parse_invalid_iff :
  forall sql : string,
  let lines := scanned_lines (Py.split "
" sql) in
  (Table.parse sql = Err (ValueError InvalidTableDefinition) <->
     Forall (fun line => is_column_line line = true -> is_ok (Column.parse line) = true) lines /\
     Forall (fun line => Table.match_table_name line = None) lines) /\
  (forall t : Table.t, Table.parse sql = Ok t -> Table.name t <> "").
Proof.
  intros sql lines. unfold Table.parse, mbind, result_bind.
  destruct (Table.parse_lines _ None ∅ ∅) as [[[n cs] ks]|e] eqn:Hl.
  - destruct (parse_lines_ok _ _ _ _ _ _ _ Hl) as (Hc & Hn & He).
    destruct n as [[|c n]|].
    + specialize (He eq_refl). discriminate.
    + split; [split; [discriminate|]|].
      * intros [_ H]. specialize (proj2 Hn (conj eq_refl H)). discriminate.
      * intros t [= <-]. simpl. discriminate.
    + split; [split|].
      * intros _. split; [exact Hc|exact (proj2 (proj1 Hn eq_refl))].
      * intros _. reflexivity.
      * intros t [=].
  - destruct (parse_lines_err _ _ _ _ _ Hl) as (x & Hx & Hcol & Hce).
    split; [split|intros t [=]].
    + intros [= ->]. apply column_parse_err in Hce. intuition discriminate.
    + intros [Hc _]. rewrite Forall_forall in Hc.
      specialize (Hc x (proj2 (list_elem_of_In _ _) Hx) Hcol). rewrite Hce in Hc. discriminate.
Qed.

Lemma table_parse_invalid_iff_witness :
  Table.parse close_then_header = Err (ValueError InvalidTableDefinition) /\
  match Table.parse users_dump with
  | Ok t => Table.name t <> ""
  | Err _ => False
  end.
Proof.
  split.
  - apply (proj1 (table_parse_invalid_iff close_then_header)).
    vm_compute. split; constructor.
  - destruct (Table.parse users_dump) as [t|e] eqn:Hp.
    + exact (proj2 (table_parse_invalid_iff users_dump) t Hp).
    + vm_compute in Hp. discriminate.
Defined.

(** ** Failures of [Schema.parse] *)

(** The tables of the blocks that [Table.parse] accepts, in order. *)
Definition ok_tables (blocks : list string) : list Table.t :=
  omap (fun b => match Table.parse b with Ok t => Some t | Err _ => None end) blocks.

(** Inserting tables under their names, later ones overwriting. *)
Definition table_map (ts : list Table.t) (m : gmap string Table.t) : gmap string Table.t :=
  foldl (fun m t => <[Table.name t := t]> m) m ts.

Lemma table_parse_err (b : string) (e : exn) :
  Table.parse b = Err e ->
  is_value_error e = true \/
  (e = IndexError /\ exists line, In line (scanned_lines (Py.split "
" b)) /\
     is_column_line line = true /\
     (List.length (Py.split_ws (Py.strip " ," line)) < 2)%nat).
Proof.
  unfold Table.parse, mbind, result_bind.
  destruct (Table.parse_lines _ None ∅ ∅) as [[[n cs] ks]|e'] eqn:Hl.
  - destruct n as [[|c n]|]; intros [= <-]; left; reflexivity.
  - intros [= <-]. destruct (parse_lines_err _ _ _ _ _ Hl) as (x & Hx & Hcol & Hce).
    pose proof (column_parse_err _ _ Hce) as [->|[->| ->]]; [right|left|left]; auto.
    split; [reflexivity|]. exists x. split; [exact Hx|split; [exact Hcol|]].
    exact (column_parse_index_error _ Hce).
Qed.

Lemma add_blocks_ok (blocks : list string) (m : gmap string Table.t) :
  (forall b, In b blocks -> forall e, Table.parse b = Err e -> is_value_error e = true) ->
  Schema.add_blocks blocks m = Ok (table_map (ok_tables blocks) m).
Proof.
  revert m. induction blocks as [|b blocks IH]; intros m Hv; simpl; [reflexivity|].
  unfold ok_tables. simpl. destruct (Table.parse b) as [t|e] eqn:Hp.
  - apply IH. intros b' Hb'. apply Hv. right. exact Hb'.
  - pose proof (Hv b (or_introl eq_refl) e Hp) as He.
    destruct e; try discriminate. apply IH. intros b' Hb'. apply Hv. right. exact Hb'.
Qed.

Lemma add_blocks_err (blocks : list string) (m : gmap string Table.t) (e : exn) :
  Schema.add_blocks blocks m = Err e ->
  is_value_error e = false /\ exists b, In b blocks /\ Table.parse b = Err e.
Proof.
  revert m. induction blocks as [|b blocks IH]; intros m Ha; simpl in Ha; [discriminate|].
  destruct (Table.parse b) as [t|e'] eqn:Hp.
  - destruct (IH _ Ha) as (Hv & b' & Hb' & Hp'). split; [exact Hv|]. exists b'. simpl. auto.
  - destruct e' as [v| |]; [|injection Ha as <-; split; [reflexivity|exists b; simpl; auto]..].
    destruct (IH _ Ha) as (Hv & b' & Hb' & Hp'). split; [exact Hv|]. exists b'. simpl. auto.
Qed.

Definition bad_column_dump : string := "CREATE TABLE `broken` (
  `a` int(x) NOT NULL
) ENGINE=InnoDB;".

(** C2 (counterexample): a block with a column whose size [x] is not an
    integer makes [Table.parse] raise a [ValueError], which
    [Schema.parse] catches: the block is skipped and the parse succeeds
    with no table. *)
Lemma schema_parse_skips_malformed_column :
  Column.parse "`a` int(x) NOT NULL" = Err (ValueError InvalidLiteral) /\
  Table.parse bad_column_dump = Err (ValueError InvalidLiteral) /\
  Schema.parse no_search no_search "dump.sql" bad_column_dump =
    Ok (Schema.mk "dump.sql" bad_column_dump None None ∅).
Proof. vm_compute. split; [reflexivity|split; reflexivity]. Qed.

(** C2 (amended): when no block makes [Table.parse] raise anything but a
    [ValueError] (a missing table name or a column size that is not an
    integer), [Schema.parse] succeeds and its tables are those of the
    accepted blocks: every other block is skipped.  When it fails, the
    error is an [IndexError] raised by a block with a column line of
    fewer than two tokens. *)
Theorem schema_parse_skips_value_errors :
  forall (search_db search_version : string -> option string) (path sql : string),
  let blocks := Py.split "

" sql in
  ((forall b, In b blocks -> forall e, Table.parse b = Err e -> is_value_error e = true) ->
   Schema.parse search_db search_version path sql =
     Ok (Schema.mk path sql (search_db sql) (search_version sql)
                   (table_map (ok_tables blocks) ∅))) /\
  (forall e, Schema.parse search_db search_version path sql = Err e ->
   e = IndexError /\
   exists b, In b blocks /\ Table.parse b = Err IndexError /\
     exists line, In line (scanned_lines (Py.split "
" b)) /\
       is_column_line line = true /\
       (List.length (Py.split_ws (Py.strip " ," line)) < 2)%nat).
Proof.
  intros search_db search_version path sql blocks. unfold Schema.parse, mbind, result_bind.
  split.
  - intros Hv. rewrite (add_blocks_ok _ _ Hv). reflexivity.
  - intros e. destruct (Schema.add_blocks _ ∅) eqn:Ha; [discriminate|].
    intros [= <-]. destruct (add_blocks_err _ _ _ Ha) as (Hv & b & Hb & Hp).
    destruct (table_parse_err _ _ Hp) as [Hv'|[-> Hl]]; [congruence|].
    split; [reflexivity|]. exists b. auto.
Qed.

Definition short_column_dump : string := "CREATE TABLE `t` (
  `a`
) ENGINE=InnoDB;".

Lemma schema_parse_skips_value_errors_witness :
  Schema.parse no_search no_search "dump.sql" bad_column_dump =
    Ok (Schema.mk "dump.sql" bad_column_dump None None
                  (table_map (ok_tables (Py.split "

" bad_column_dump)) ∅)) /\
  match Schema.parse no_search no_search "dump.sql" short_column_dump with
  | Err e => e = IndexError
  | Ok _ => False
  end.
Proof.
  split.
  - apply (proj1 (schema_parse_skips_value_errors no_search no_search "dump.sql" bad_column_dump)).
    intros b Hb e He. vm_compute in Hb. destruct Hb as [<-|[]].
    vm_compute in He. injection He as <-. reflexivity.
  - destruct (Schema.parse no_search no_search "dump.sql" short_column_dump) as [s|e] eqn:Hp.
    + vm_compute in Hp. discriminate.
    + exact (proj1 (proj2 (schema_parse_skips_value_errors no_search no_search "dump.sql"
                             short_column_dump) e Hp)).
Defined.

(** * Further properties of the code *)

(** ** Column equality is an equivalence *)

(** [Column.__eq__] is transitive; with reflexivity and symmetry it is an
    equivalence, also across the [datetime] exception. *)
Theorem column_eq_trans :
  forall a b c : Column.t,
  Column.eq a b = true -> Column.eq b c = true -> Column.eq a c = true.
Proof.
  intros a b c. rewrite !column_eq_true_iff.
  intros (Hn1 & Ht1 & Hl1 & Hp1 & Ha1 & Hu1) (Hn2 & Ht2 & Hl2 & Hp2 & Ha2 & Hu2).
  repeat split; try congruence.
  intros Hd. rewrite (Hl1 Hd). apply Hl2. congruence.
Qed.

Definition dt_c : Column.t := Column.mk "`t` datetime NOT NULL" "t" "datetime" None None false false.

Lemma column_eq_trans_witness :
  Column.eq dt_a dt_b = true /\ Column.eq dt_b dt_c = true /\ Column.eq dt_a dt_c = true.
Proof.
  assert (H1 : Column.eq dt_a dt_b = true) by reflexivity.
  assert (H2 : Column.eq dt_b dt_c = true) by reflexivity.
  exact (conj H1 (conj H2 (column_eq_trans dt_a dt_b dt_c H1 H2))).
Defined.

(** ** Fields of a parsed column *)

Lemma elem_char_app (c : ascii) (a b : string) :
  Py.elem_char c (a ++ b) = Py.elem_char c a || Py.elem_char c b.
Proof.
  induction a as [|d a IH]; simpl; [reflexivity|].
  destruct (ascii_dec c d); [reflexivity|exact IH].
Qed.

Lemma elem_char_rev (c : ascii) (s : string) :
  Py.elem_char c (Py.rev_str s) = Py.elem_char c s.
Proof.
  induction s as [|d s IH]; simpl; [reflexivity|].
  rewrite elem_char_app, IH. simpl.
  destruct (ascii_dec c d); [apply orb_true_r|apply orb_false_r].
Qed.

Lemma contains_char (c : ascii) (s : string) :
  Py.contains (String c EmptyString) s = Py.elem_char c s.
Proof.
  induction s as [|d s IH]; simpl; [reflexivity|].
  destruct (ascii_dec c d); [by destruct s|exact IH].
Qed.

Lemma substring_all (s : string) (m : nat) :
  (String.length s <= m)%nat -> substring 0 m s = s.
Proof.
  revert m. induction s as [|d s IH]; intros m Hm; destruct m as [|m]; simpl in *;
    try reflexivity; try lia.
  rewrite IH by lia. reflexivity.
Qed.

Lemma split_go_no_sep (c : ascii) (fuel : nat) (s cur : string) :
  (String.length s < fuel)%nat -> Py.elem_char c cur = false ->
  forall x, In x (Py.split_go fuel (String c EmptyString) s cur) -> Py.elem_char c x = false.
Proof.
  revert s cur. induction fuel as [|f IH]; intros s cur Hf Hcur x Hx; [lia|].
  destruct s as [|d s]; simpl in Hx.
  - destruct Hx as [<-|[]]. by rewrite elem_char_rev.
  - destruct (ascii_dec c d) as [<-|Hcd]; simpl in Hx.
    + replace (String.prefix "" s) with true in Hx by (destruct s; reflexivity).
      rewrite substring_all in Hx by lia. simpl in Hf.
      destruct Hx as [<-|Hx]; [by rewrite elem_char_rev|].
      apply (IH s ""); [lia|reflexivity|exact Hx].
    + simpl in Hf. apply (IH s (String d cur)); [lia| |exact Hx].
      simpl. by destruct (ascii_dec c d).
Qed.

(** No piece of [s.split(c)] contains the separator [c]. *)
Lemma split_no_sep (c : ascii) (s x : string) :
  In x (Py.split (String c EmptyString) s) -> Py.contains (String c EmptyString) x = false.
Proof.
  intros Hx. rewrite contains_char.
  apply (split_go_no_sep c (S (String.length s)) s ""); [lia|reflexivity|exact Hx].
Qed.

(** A column returned by [Column.parse] keeps the line as its [sql]; its
    type has no [(]; it has a [precision] only together with a [length];
    and it has a [length] exactly when the type token [parts[1]] holds a
    [(]. *)
Theorem column_parse_fields :
  forall (line : string) (c : Column.t),
  Column.parse line = Ok c ->
  Column.sql c = line /\
  Py.contains "(" (Column.type c) = false /\
  (Column.precision c <> None -> Column.length c <> None) /\
  (Column.length c = None <->
   Py.contains "(" (nth 1 (Py.split_ws (Py.strip " ," line)) "") = false).
Proof.
  intros line c. unfold Column.parse, Py.index.
  destruct (Py.split_ws (Py.strip " ," line)) as [|t0 [|t1 rest]]; simpl; try discriminate.
  unfold Column.parse_type.
  destruct (Py.contains "(" t1) eqn:Hc; simpl.
  - unfold Py.unpack2.
    destruct (Py.split "(" (Py.strip ")" t1)) as [|ty [|size [|? ?]]] eqn:Hs;
      simpl; try discriminate.
    assert (Hty : Py.contains "(" ty = false).
    { apply split_no_sep with (s := Py.strip ")" t1). rewrite Hs. left. reflexivity. }
    destruct (Py.contains "," size); simpl.
    + destruct (Py.split "," size) as [|l [|p [|? ?]]]; simpl; try discriminate.
      destruct (Py.int p); simpl; [|discriminate].
      destruct (Py.int l); simpl; [|discriminate].
      intros [= <-]. simpl. repeat split; done.
    + destruct (Py.int size); simpl; [|discriminate].
      intros [= <-]. simpl. repeat split; done.
  - intros [= <-]. simpl. repeat split; done.
Qed.

Lemma column_parse_fields_witness :
  Column.sql (Column.mk "`score` decimal(5,2) DEFAULT NULL" "score" "decimal" (Some 5%Z) (Some 2%Z) false true)
    = "`score` decimal(5,2) DEFAULT NULL".
Proof.
  exact (proj1 (column_parse_fields "`score` decimal(5,2) DEFAULT NULL" _ eq_refl)).
Defined.

(** ** What [Table.parse] and [Schema.parse] store *)

(** Looking up after a run of insertions keyed by [f]: the last inserted
    value with that key wins. *)
Lemma lookup_foldl_insert {V : Type} (f : V -> string) (xs : list V)
    (m : gmap string V) (k : string) :
  foldl (fun m x => <[f x := x]> m) m xs !! k =
  match last (filter (fun x => f x = k) xs) with Some x => Some x | None => m !! k end.
Proof.
  revert m. induction xs as [|x xs IH]; intros m; simpl; [reflexivity|].
  rewrite IH, filter_cons. case_decide as Hx.
  - rewrite last_cons. destruct (last (filter _ xs)); [reflexivity|].
    subst. by rewrite lookup_insert_eq.
  - destruct (last (filter _ xs)); [reflexivity|]. by rewrite lookup_insert_ne.
Qed.

Lemma last_filter_eq {V : Type} (f : V -> string) (xs : list V) (k : string) (x : V) :
  last (filter (fun x => f x = k) xs) = Some x -> f x = k.
Proof.
  intros H. apply last_Some_elem_of in H. by apply list_elem_of_filter in H as [? _].
Qed.

(** The columns [Table.parse] adds, in order: the parses of the column
    lines it examines. *)
Definition scanned_columns (lines : list string) : list Column.t :=
  omap (fun line => if is_column_line line
                    then match Column.parse line with Ok c => Some c | Err _ => None end
                    else None) (scanned_lines lines).

(** The names on the table-name lines [Table.parse] examines, in order. *)
Definition scanned_names (lines : list string) : list string :=
  omap Table.match_table_name (scanned_lines lines).

Lemma parse_lines_result (lines : list string) name columns keys name' columns' keys' :
  Table.parse_lines lines name columns keys = Ok (name', columns', keys') ->
  columns' = foldl (fun m c => <[Column.name c := c]> m) columns (scanned_columns lines) /\
  name' = match last (scanned_names lines) with Some w => Some w | None => name end.
Proof.
  revert name columns keys.
  induction lines as [|l lines IH]; intros name columns keys Hp; simpl in Hp.
  - injection Hp as -> -> ->. split; reflexivity.
  - unfold scanned_columns, scanned_names in *. simpl scanned_lines.
    set (line := Py.strip " ," l) in *.
    destruct (Table.match_table_name line) as [w|] eqn:Hm.
    + assert (Hcl : is_closing_line line = false)
        by (unfold is_closing_line; rewrite Hm; reflexivity).
      assert (Hcol : is_column_line line = false)
        by (unfold is_column_line; rewrite Hm; reflexivity).
      rewrite Hcl. destruct (IH _ _ _ Hp) as [Hc Hn]. simpl. rewrite Hcol, Hm.
      split; [exact Hc|]. rewrite Hn, last_cons. unfold omap.
      destruct (last (list_omap _ _ _ _)); reflexivity.
    + destruct (Py.startswith line "`") eqn:Hb.
      * assert (Hcl : is_closing_line line = false)
          by (unfold is_closing_line; rewrite Hm, Hb; reflexivity).
        assert (Hcol : is_column_line line = true)
          by (unfold is_column_line; rewrite Hm, Hb; reflexivity).
        rewrite Hcl. unfold mbind, result_bind in Hp.
        destruct (Column.parse line) as [col|] eqn:Hc; [|discriminate].
        destruct (IH _ _ _ Hp) as [Hc' Hn]. simpl. rewrite Hcol, Hc, Hm.
        exact (conj Hc' Hn).
      * assert (Hcol : is_column_line line = false)
          by (unfold is_column_line; rewrite Hm, Hb; reflexivity).
        destruct (Py.contains "KEY" line) eqn:Hk.
        -- assert (Hcl : is_closing_line line = false)
             by (unfold is_closing_line; rewrite Hm, Hb, Hk; reflexivity).
           rewrite Hcl. destruct (IH _ _ _ Hp) as [Hc Hn]. simpl. rewrite Hcol, Hm.
           exact (conj Hc Hn).
        -- destruct (Py.startswith line ")") eqn:Hr.
           ++ assert (Hcl : is_closing_line line = true)
                by (unfold is_closing_line; rewrite Hm, Hb, Hk, Hr; reflexivity).
              rewrite Hcl. injection Hp as -> -> ->. split; reflexivity.
           ++ assert (Hcl : is_closing_line line = false)
                by (unfold is_closing_line; rewrite Hm, Hb, Hk, Hr; reflexivity).
              rewrite Hcl. destruct (IH _ _ _ Hp) as [Hc Hn]. simpl. rewrite Hcol, Hm.
              exact (conj Hc Hn).
Qed.

Lemma column_parse_sql (line : string) (c : Column.t) :
  Column.parse line = Ok c -> Column.sql c = line.
Proof.
  unfold Column.parse, mbind, result_bind, mret, result_ret.
  repeat case_match; intros; simplify_eq; reflexivity.
Qed.

Lemma scanned_columns_elem (lines : list string) (c : Column.t) :
  c ∈ scanned_columns lines ->
  Column.parse (Column.sql c) = Ok c /\ In (Column.sql c) (scanned_lines lines) /\
  is_column_line (Column.sql c) = true.
Proof.
  unfold scanned_columns. intros Hc. apply list_elem_of_omap in Hc as (l & Hl & Hf).
  destruct (is_column_line l) eqn:Hcol; [|discriminate].
  destruct (Column.parse l) as [c'|] eqn:Hp; [|discriminate].
  injection Hf as <-. rewrite (column_parse_sql _ _ Hp).
  split; [exact Hp|]. split; [apply list_elem_of_In; exact Hl|exact Hcol].
Qed.

Lemma table_parse_parts (sql : string) (t : Table.t) :
  Table.parse sql = Ok t ->
  exists keys,
  Table.parse_lines (Py.split "
" sql) None ∅ ∅ = Ok (Some (Table.name t), Table.columns t, keys) /\
  Table.sql t = sql /\ Table.name t <> "".
Proof.
  unfold Table.parse, mbind, result_bind.
  destruct (Table.parse_lines _ None ∅ ∅) as [[[n cs] ks]|e]; [|discriminate].
  destruct n as [[|ch n]|]; try discriminate. intros [= <-]. simpl.
  exists ks. split; [reflexivity|]. split; [reflexivity|discriminate].
Qed.





Lemma add_blocks_result (blocks : list string) (m m' : gmap string Table.t) :
  Schema.add_blocks blocks m = Ok m' -> m' = table_map (ok_tables blocks) m.
Proof.
  revert m. induction blocks as [|b blocks IH]; intros m Ha; simpl in Ha.
  - by injection Ha.
  - unfold ok_tables. simpl. destruct (Table.parse b) as [t|[v| |]]; try discriminate;
      exact (IH _ Ha).
Qed.



(** ** The comparison grid and the alter statements *)

(** The rows [print_columns] writes for one column name of the union. *)
Definition column_rows (src_table dst_table : Table.t) (col : string) : list Differences.row :=
  match Table.columns src_table !! col, Table.columns dst_table !! col with
  | Some s, None => [(Column.sql s, "")]
  | None, Some d => [("", Column.sql d)]
  | Some s, Some d => if Column.eq s d then [] else [(Column.sql s, Column.sql d)]
  | None, None => []
  end.

(** The rows [print_tables] writes for one table name of the union. *)
Definition table_rows (src dst : Schema.t) (table : string) : list Differences.row :=
  match Schema.tables src !! table, Schema.tables dst !! table with
  | Some _, None => [("", format_table table)]
  | None, Some _ => [(format_table table, "")]
  | Some st, Some dt =>
      if Differences.dict_eq (Table.columns st) (Table.columns dt) then []
      else (format_table (Table.name st), format_table (Table.name dt))
             :: flat_map (column_rows st dt) (elements (Table.names st ∪ Table.names dt))
  | None, None => []
  end.

Lemma not_in_names (t : Table.t) (col : string) :
  Table.columns t !! col = None -> col ∉ Table.names t.
Proof. intros H. unfold Table.names. rewrite elem_of_dom, H. apply is_Some_None. Qed.

Lemma in_names (t : Table.t) (col : string) (c : Column.t) :
  Table.columns t !! col = Some c -> col ∈ Table.names t.
Proof. intros H. apply elem_of_dom. eauto. Qed.

Lemma print_column_ok (st dt : Table.t) (col : string) :
  col ∈ Table.names st ∪ Table.names dt ->
  Differences.print_column st dt col = Ok (column_rows st dt col).
Proof.
  intros Hc. apply elem_of_union in Hc.
  unfold Differences.print_column, column_rows.
  destruct (Table.columns st !! col) as [c|] eqn:Hsc;
    destruct (Table.columns dt !! col) as [d|] eqn:Hdc.
  - rewrite (mem_true _ _ (in_names _ _ _ Hsc)), (mem_true _ _ (in_names _ _ _ Hdc)). simpl.
    rewrite (table_getitem_some _ _ _ Hsc), (table_getitem_some _ _ _ Hdc). simpl.
    destruct (Column.eq c d); reflexivity.
  - rewrite (mem_true _ _ (in_names _ _ _ Hsc)), (mem_false _ _ (not_in_names _ _ Hdc)). simpl.
    rewrite (table_getitem_some _ _ _ Hsc). reflexivity.
  - rewrite (mem_false _ _ (not_in_names _ _ Hsc)), (mem_true _ _ (in_names _ _ _ Hdc)). simpl.
    rewrite (table_getitem_some _ _ _ Hdc). reflexivity.
  - exfalso. destruct Hc as [Hc|Hc]; revert Hc; apply not_in_names; assumption.
Qed.

Lemma alter_column_ok (st dt : Table.t) (col : string) :
  col ∈ Table.names st ∪ Table.names dt ->
  Differences.alter_column st dt col = Ok (alter_statement_spec st dt col).
Proof.
  intros Hc. apply elem_of_union in Hc.
  unfold Differences.alter_column, alter_statement_spec.
  destruct (Table.columns st !! col) as [c|] eqn:Hsc;
    destruct (Table.columns dt !! col) as [d|] eqn:Hdc.
  - rewrite (mem_true _ _ (in_names _ _ _ Hsc)), (mem_true _ _ (in_names _ _ _ Hdc)). simpl.
    rewrite (table_getitem_some _ _ _ Hsc), (table_getitem_some _ _ _ Hdc). simpl.
    destruct (Column.eq c d); reflexivity.
  - rewrite (mem_true _ _ (in_names _ _ _ Hsc)), (mem_false _ _ (not_in_names _ _ Hdc)). simpl.
    rewrite (table_getitem_some _ _ _ Hsc). reflexivity.
  - rewrite (mem_false _ _ (not_in_names _ _ Hsc)), (mem_true _ _ (in_names _ _ _ Hdc)).
    reflexivity.
  - exfalso. destruct Hc as [Hc|Hc]; revert Hc; apply not_in_names; assumption.
Qed.

Lemma print_columns_ok (st dt : Table.t) :
  Differences.print_columns st dt =
    Ok (if Differences.dict_eq (Table.columns st) (Table.columns dt) then []
        else (format_table (Table.name st), format_table (Table.name dt))
               :: flat_map (column_rows st dt) (elements (Table.names st ∪ Table.names dt))).
Proof.
  unfold Differences.print_columns.
  destruct (Differences.dict_eq _ _); [reflexivity|].
  rewrite (for_each_flat_map _ (column_rows st dt)); [reflexivity|].
  intros col Hc. apply print_column_ok. by apply elem_of_elements in Hc.
Qed.

Lemma print_table_ok (src dst : Schema.t) (n : string) :
  n ∈ Schema.names src ∪ Schema.names dst ->
  Differences.print_table src dst n = Ok (table_rows src dst n).
Proof.
  intros Hn. apply elem_of_union in Hn. unfold Schema.names in Hn.
  unfold Differences.print_table, table_rows, Schema.names.
  destruct (Schema.tables src !! n) as [st|] eqn:Hs;
    destruct (Schema.tables dst !! n) as [dt|] eqn:Hd.
  - rewrite (mem_true n), (mem_true n) by (apply elem_of_dom; eauto). simpl.
    rewrite (schema_getitem_some _ _ _ Hs), (schema_getitem_some _ _ _ Hd). simpl.
    apply print_columns_ok.
  - rewrite (mem_true n) by (apply elem_of_dom; eauto).
    rewrite (mem_false n) by (rewrite elem_of_dom, Hd; apply is_Some_None). reflexivity.
  - rewrite (mem_false n) by (rewrite elem_of_dom, Hs; apply is_Some_None).
    rewrite (mem_true n) by (apply elem_of_dom; eauto). reflexivity.
  - exfalso. destruct Hn as [Hn|Hn]; apply elem_of_dom in Hn as [? ?]; congruence.
Qed.

Lemma print_tables_ok (src dst : Schema.t) :
  Differences.print_tables src dst =
    Ok ((Differences.header src, Differences.header dst),
        flat_map (table_rows src dst) (elements (Schema.names src ∪ Schema.names dst))).
Proof.
  unfold Differences.print_tables.
  rewrite (for_each_flat_map _ (table_rows src dst)); [reflexivity|].
  intros n Hn. apply print_table_ok. by apply elem_of_elements in Hn.
Qed.

Lemma alter_table_ok (st dt : Table.t) :
  Differences.for_each (Differences.alter_column st dt)
    (elements (Table.names st ∪ Table.names dt)) =
  Ok (flat_map (alter_statement_spec st dt) (elements (Table.names st ∪ Table.names dt))).
Proof.
  apply for_each_flat_map. intros col Hc. apply alter_column_ok.
  by apply elem_of_elements in Hc.
Qed.

Lemma flat_map_nil_iff {A B : Type} (f : A -> list B) (xs : list A) :
  flat_map f xs = [] <-> forall x, In x xs -> f x = [].
Proof.
  induction xs as [|x xs IH]; simpl.
  - split; [intros _ y []|reflexivity].
  - rewrite app_nil. split.
    + intros [Hx Hxs] y [<-|Hy]; [exact Hx|exact (proj1 IH Hxs y Hy)].
    + intros H. split; [auto|]. apply IH. intros y Hy. auto.
Qed.

Lemma length_flat_map_eq {A B C : Type} (f : A -> list B) (g : A -> list C) (xs : list A) :
  (forall x, In x xs -> List.length (f x) = List.length (g x)) ->
  List.length (flat_map f xs) = List.length (flat_map g xs).
Proof.
  induction xs as [|x xs IH]; intros H; simpl; [reflexivity|].
  rewrite !length_app, (H x (or_introl eq_refl)), IH; [reflexivity|].
  intros y Hy. apply H. right. exact Hy.
Qed.

Lemma dict_eq_true_iff (a b : gmap string Column.t) :
  Differences.dict_eq a b = true <->
  dom a = dom b /\
  (forall k x y, a !! k = Some x -> b !! k = Some y -> Column.eq x y = true).
Proof.
  unfold Differences.dict_eq. rewrite andb_true_iff, Nat.eqb_eq, forallb_forall. split.
  - intros [Hs Hf].
    assert (Hl : forall k x, a !! k = Some x ->
                 exists y, b !! k = Some y /\ Column.eq x y = true).
    { intros k x Hk.
      assert (Hin : In (k, x) (map_to_list a))
        by (apply list_elem_of_In, elem_of_map_to_list; exact Hk).
      specialize (Hf _ Hin). simpl in Hf.
      destruct (b !! k) as [y|]; [eauto|discriminate]. }
    split.
    + apply set_subseteq_size_eq.
      * intros k Hk. apply elem_of_dom in Hk as [x Hx].
        destruct (Hl _ _ Hx) as (y & Hy & _). apply elem_of_dom. eauto.
      * rewrite (size_dom a), (size_dom b). lia.
    + intros k x y Hx Hy. destruct (Hl _ _ Hx) as (y' & Hy' & He). congruence.
  - intros [Hd Hf]. split.
    + rewrite <- (size_dom a), <- (size_dom b), Hd. reflexivity.
    + intros [k x] Hin. apply list_elem_of_In, elem_of_map_to_list in Hin. simpl.
      assert (Hk : k ∈ dom b) by (rewrite <- Hd; apply elem_of_dom; eauto).
      apply elem_of_dom in Hk as [y Hy]. rewrite Hy. eauto.
Qed.

(** The per-column rows are all empty exactly when the two column maps
    compare equal. *)
Lemma column_rows_nil_iff (st dt : Table.t) :
  flat_map (column_rows st dt) (elements (Table.names st ∪ Table.names dt)) = [] <->
  Differences.dict_eq (Table.columns st) (Table.columns dt) = true.
Proof.
  rewrite flat_map_nil_iff, dict_eq_true_iff.
  assert (Hu : forall k, In k (elements (Table.names st ∪ Table.names dt)) <->
               k ∈ Table.names st \/ k ∈ Table.names dt).
  { intros k. rewrite <- list_elem_of_In, elem_of_elements, elem_of_union. reflexivity. }
  split.
  - intros H. split.
    + apply set_eq. intros k. split; intros Hk.
      * assert (Hn := H k (proj2 (Hu k) (or_introl Hk))). unfold column_rows in Hn.
        apply elem_of_dom in Hk as [s Hs]. rewrite Hs in Hn.
        apply elem_of_dom. destruct (Table.columns dt !! k); [eauto|discriminate].
      * assert (Hn := H k (proj2 (Hu k) (or_intror Hk))). unfold column_rows in Hn.
        apply elem_of_dom in Hk as [d Hd]. rewrite Hd in Hn.
        apply elem_of_dom. destruct (Table.columns st !! k); [eauto|discriminate].
    + intros k x y Hx Hy.
      assert (Hn := H k (proj2 (Hu k) (or_introl (in_names _ _ _ Hx)))).
      unfold column_rows in Hn. rewrite Hx, Hy in Hn.
      destruct (Column.eq x y); [reflexivity|discriminate].
  - intros [Hd He] k Hk. unfold column_rows.
    destruct (Table.columns st !! k) as [x|] eqn:Hx;
      destruct (Table.columns dt !! k) as [y|] eqn:Hy.
    + by rewrite (He _ _ _ Hx Hy).
    + exfalso. apply (not_in_names _ _ Hy). unfold Table.names. rewrite <- Hd.
      exact (in_names _ _ _ Hx).
    + exfalso. apply (not_in_names _ _ Hx). unfold Table.names. rewrite Hd.
      exact (in_names _ _ _ Hy).
    + reflexivity.
Qed.

(** [print_columns] never fails.  It writes nothing exactly when the two
    tables have the same column names and every source column is [==] to
    the destination column of the same name; otherwise it writes the
    banner row [---- SRC ---- | ---- DST ----] followed by at least one
    row: it never writes a banner alone. *)
Theorem print_columns_rows :
  forall st dt : Table.t,
  exists rows, Differences.print_columns st dt = Ok rows /\
  (rows = [] <->
   Table.names st = Table.names dt /\
   (forall k s d, Table.columns st !! k = Some s -> Table.columns dt !! k = Some d ->
                  Column.eq s d = true)) /\
  (rows <> [] -> exists r rest,
     rows = (format_table (Table.name st), format_table (Table.name dt)) :: r :: rest).
Proof.
  intros st dt. rewrite print_columns_ok. eexists. split; [reflexivity|].
  unfold Table.names. rewrite <- dict_eq_true_iff.
  destruct (Differences.dict_eq _ _) eqn:He.
  - split; [tauto|]. intros H. by exfalso.
  - split; [split; [discriminate|congruence]|]. intros _.
    destruct (flat_map (column_rows st dt) _) as [|r rest] eqn:Hf.
    + apply column_rows_nil_iff in Hf. congruence.
    + eauto.
Qed.

(** [print_tables] never fails, writes the header row built from the two
    schemas' names, databases and versions, and writes no further row
    exactly when both schemas have the same table names and every table
    present in both has the same column names with [==] columns. *)
Theorem print_tables_no_rows_iff :
  forall src dst : Schema.t,
  exists rows,
  Differences.print_tables src dst =
    Ok ((Differences.header src, Differences.header dst), rows) /\
  (rows = [] <->
   Schema.names src = Schema.names dst /\
   (forall n st dt, Schema.tables src !! n = Some st -> Schema.tables dst !! n = Some dt ->
      Table.names st = Table.names dt /\
      (forall k s d, Table.columns st !! k = Some s -> Table.columns dt !! k = Some d ->
                     Column.eq s d = true))).
Proof.
  intros src dst. rewrite print_tables_ok. eexists. split; [reflexivity|].
  rewrite flat_map_nil_iff.
  assert (Hu : forall k, In k (elements (Schema.names src ∪ Schema.names dst)) <->
               k ∈ Schema.names src \/ k ∈ Schema.names dst).
  { intros k. rewrite <- list_elem_of_In, elem_of_elements, elem_of_union. reflexivity. }
  unfold Schema.names in *. split.
  - intros H. split.
    + apply set_eq. intros k. split; intros Hk.
      * assert (Hn := H k (proj2 (Hu k) (or_introl Hk))). unfold table_rows in Hn.
        apply elem_of_dom in Hk as [s Hs]. rewrite Hs in Hn.
        apply elem_of_dom. destruct (Schema.tables dst !! k); [eauto|discriminate].
      * assert (Hn := H k (proj2 (Hu k) (or_intror Hk))). unfold table_rows in Hn.
        apply elem_of_dom in Hk as [d Hd]. rewrite Hd in Hn.
        apply elem_of_dom. destruct (Schema.tables src !! k); [eauto|discriminate].
    + intros n st dt Hs Hd.
      assert (Hn := H n (proj2 (Hu n) (or_introl (proj2 (elem_of_dom _ _) (ex_intro _ _ Hs))))).
      unfold table_rows in Hn. rewrite Hs, Hd in Hn.
      destruct (Differences.dict_eq _ _) eqn:He; [|discriminate].
      apply dict_eq_true_iff in He. exact He.
  - intros [Hd He] k Hk. unfold table_rows.
    destruct (Schema.tables src !! k) as [x|] eqn:Hx;
      destruct (Schema.tables dst !! k) as [y|] eqn:Hy.
    + destruct (He _ _ _ Hx Hy) as [Hn Hc].
      replace (Differences.dict_eq _ _) with true; [reflexivity|].
      symmetry. apply dict_eq_true_iff. split; [exact Hn|exact Hc].
    + exfalso. assert (Hk' : k ∈ dom (Schema.tables dst))
        by (rewrite <- Hd; apply elem_of_dom; eauto).
      apply elem_of_dom in Hk' as [? ?]. congruence.
    + exfalso. assert (Hk' : k ∈ dom (Schema.tables src))
        by (rewrite Hd; apply elem_of_dom; eauto).
      apply elem_of_dom in Hk' as [? ?]. congruence.
    + reflexivity.
Qed.


(** ** [main] *)

Lemma prefix_app (p s : string) : String.prefix p (p ++ s) = true.
Proof.
  induction p as [|c p IH]; simpl; [by destruct s|].
  destruct (ascii_dec c c); [exact IH|congruence].
Qed.

Lemma schema_parse_err (sd sv : string -> option string) (path sql : string) (e : exn) :
  Schema.parse sd sv path sql = Err e -> e = IndexError.
Proof.
  unfold Schema.parse, mbind, result_bind.
  destruct (Schema.add_blocks _ ∅) as [m|e'] eqn:Ha; [discriminate|]. intros [= <-].
  destruct (add_blocks_err _ _ _ Ha) as (Hv & b & _ & Hb).
  destruct (table_parse_err _ _ Hb) as [Hv'|[He _]]; [congruence|exact He].
Qed.

Lemma schema_parse_name (sd sv : string -> option string) (path sql : string) (s : Schema.t) :
  Schema.parse sd sv path sql = Ok s -> Schema.name s = path.
Proof.
  unfold Schema.parse, mbind, result_bind.
  destruct (Schema.add_blocks _ ∅); [|discriminate]. by intros [= <-].
Qed.

Lemma sql_drop_tables_prefix (src dst : Schema.t) :
  Forall (fun l => Py.startswith l "DROP TABLE `" = true) (Differences.sql_drop_tables src dst).
Proof.
  unfold Differences.sql_drop_tables. apply Forall_forall. intros l Hl.
  apply list_elem_of_In, in_map_iff in Hl as (m & <- & _). apply prefix_app.
Qed.

Lemma sql_alter_tables_prefix (src dst : Schema.t) :
  exists stmts, Differences.sql_alter_tables src dst = Ok stmts /\
  Forall (fun l => Py.startswith l "ALTER TABLE `" = true) stmts.
Proof.
  unfold Differences.sql_alter_tables.
  set (g := fun both => match Schema.tables src !! both, Schema.tables dst !! both with
                        | Some st, Some dt =>
                            flat_map (alter_statement_spec st dt)
                              (elements (Table.names st ∪ Table.names dt))
                        | _, _ => []
                        end).
  exists (flat_map g (elements (Schema.names src ∩ Schema.names dst))). split.
  - apply for_each_flat_map. intros both Hb. apply elem_of_elements in Hb.
    apply elem_of_intersection in Hb as [Hs Hd]. unfold Schema.names in Hs, Hd.
    apply elem_of_dom in Hs as [st Hst]. apply elem_of_dom in Hd as [dt Hdt].
    rewrite (schema_getitem_some _ _ _ Hst), (schema_getitem_some _ _ _ Hdt). simpl.
    unfold g. rewrite Hst, Hdt. apply alter_table_ok.
  - apply Forall_forall. intros l Hl. apply list_elem_of_In, in_flat_map in Hl as (both & _ & Hl).
    unfold g in Hl.
    destruct (Schema.tables src !! both) as [st|], (Schema.tables dst !! both) as [dt|];
      try contradiction.
    apply in_flat_map in Hl as (col & _ & Hl). unfold alter_statement_spec in Hl.
    destruct (Table.columns st !! col), (Table.columns dt !! col); simpl in Hl;
      try contradiction; try (destruct (Column.eq _ _); simpl in Hl; [contradiction|]);
      destruct Hl as [<-|[]]; apply prefix_app.
Qed.



(** When both dumps are read, [main] succeeds.  With neither
    [--drop-tables] nor [--alter-tables] it writes the comparison grid
    under the two schemas' header row; otherwise it prints the two
    comment lines naming the destination path, then only [DROP TABLE]
    statements (when [--drop-tables] is given) and [ALTER TABLE]
    statements (when [--alter-tables] is given), drops first. *)
Theorem main_output :
  forall (search_db search_version : string -> option string) (o : Main.opts)
         (src_path src_sql dst_path dst_sql : string) (a b : Schema.t),
  Schema.parse search_db search_version src_path src_sql = Ok a ->
  Schema.parse search_db search_version dst_path dst_sql = Ok b ->
  exists out,
  Main.main search_db search_version o src_path src_sql dst_path dst_sql = Ok out /\
  (Main.drop_tables o = false -> Main.alter_tables o = false ->
   exists rows, out = Main.Grid (Differences.header a, Differences.header b) rows) /\
  (Main.drop_tables o = true \/ Main.alter_tables o = true ->
   exists drops alters,
   out = Main.Statements ("/* Generated by sqldiff. */" ::
                          ("/* To be run on " ++ dst_path ++ " */") :: app drops alters) /\
   Forall (fun l => Main.drop_tables o = true /\ Py.startswith l "DROP TABLE `" = true) drops /\
   Forall (fun l => Main.alter_tables o = true /\ Py.startswith l "ALTER TABLE `" = true) alters).
Proof.
  intros sd sv o sp ss dp ds a b Ha Hb.
  pose proof (schema_parse_name _ _ _ _ _ Hb) as Hn.
  destruct (sql_alter_tables_prefix a b) as (stmts & Hst & Hall).
  pose proof (sql_drop_tables_prefix a b) as Hdrop.
  unfold Main.main, mbind, result_bind. rewrite Ha, Hb, print_tables_ok, Hst, Hn.
  destruct (Main.drop_tables o) eqn:Hd, (Main.alter_tables o) eqn:Hal; simpl.
  - eexists. split; [reflexivity|]. split; [discriminate|]. intros _.
    do 2 eexists. split; [reflexivity|].
    split; (eapply Forall_impl; [eassumption|]); intros l Hl; simpl; auto.
  - eexists. split; [reflexivity|]. split; [discriminate|]. intros _.
    exists (Differences.sql_drop_tables a b), []. split; [by rewrite app_nil_r|].
    split; [|constructor]. eapply Forall_impl; [eassumption|]. intros l Hl. auto.
  - eexists. split; [reflexivity|]. split; [discriminate|]. intros _.
    exists [], stmts. split; [reflexivity|].
    split; [constructor|]. eapply Forall_impl; [eassumption|]. intros l Hl. auto.
  - eexists. split; [reflexivity|]. split; [eauto|]. intros [H|H]; discriminate.
Qed.

Lemma main_output_witness :
  exists out, Main.main no_search no_search (Main.mk_opts false false false true true)
                "src.sql" scenario_src_dump "dst.sql" scenario_dst_dump = Ok out.
Proof.
  destruct (Schema.parse no_search no_search "src.sql" scenario_src_dump) as [a|e] eqn:Ha;
    [|vm_compute in Ha; discriminate].
  destruct (Schema.parse no_search no_search "dst.sql" scenario_dst_dump) as [b|e] eqn:Hb;
    [|vm_compute in Hb; discriminate].
  destruct (main_output no_search no_search (Main.mk_opts false false false true true)
              "src.sql" scenario_src_dump "dst.sql" scenario_dst_dump a b Ha Hb)
    as (out & Hout & _).
  exists out. exact Hout.
Defined.

(** ** What [Column.__eq__] does not look at *)

Lemma column_parse_shape (line : string) (c : Column.t) :
  Column.parse line = Ok c ->
  exists p0 p1 rest ty len prec,
  Py.split_ws (Py.strip " ," line) = p0 :: p1 :: rest /\
  Column.parse_type p1 = Ok (ty, len, prec) /\
  c = Column.mk line (Py.strip "`" p0) ty len prec
        (existsb (fun part => String.eqb part "AUTO_INCREMENT") rest)
        (negb (Py.contains "NOT NULL" line)).
Proof.
  unfold Column.parse.
  destruct (Py.split_ws (Py.strip " ," line)) as [|p0 [|p1 rest]];
    cbn -[Column.parse_type]; try discriminate.
  destruct (Column.parse_type p1) as [[[ty len] prec]|] eqn:Ht; [|discriminate].
  intros [= <-]. do 6 eexists. split; [reflexivity|]. split; [exact Ht|]. reflexivity.
Qed.

(** [Column.__eq__] compares no [sql] text: two column lines with the
    same name and type tokens, the same presence of [NOT NULL] and the
    same presence of an [AUTO_INCREMENT] token parse to [==] columns,
    whatever else differs ([DEFAULT], [COMMENT], character set, ...); so
    neither the grid nor alter-tables mode reports such a change. *)
Theorem column_eq_ignores_other_tokens :
  forall (l1 l2 : string) (c1 c2 : Column.t),
  Column.parse l1 = Ok c1 -> Column.parse l2 = Ok c2 ->
  firstn 2 (Py.split_ws (Py.strip " ," l1)) = firstn 2 (Py.split_ws (Py.strip " ," l2)) ->
  Py.contains "NOT NULL" l1 = Py.contains "NOT NULL" l2 ->
  existsb (fun part => String.eqb part "AUTO_INCREMENT") (drop 2 (Py.split_ws (Py.strip " ," l1))) =
  existsb (fun part => String.eqb part "AUTO_INCREMENT") (drop 2 (Py.split_ws (Py.strip " ," l2))) ->
  Column.eq c1 c2 = true.
Proof.
  intros l1 l2 c1 c2 H1 H2 Hhd Hnn Hai.
  destruct (column_parse_shape _ _ H1) as (p0 & p1 & r1 & ty & len & prec & Hs1 & Ht1 & ->).
  destruct (column_parse_shape _ _ H2) as (q0 & q1 & r2 & ty' & len' & prec' & Hs2 & Ht2 & ->).
  rewrite Hs1, Hs2 in Hhd. rewrite Hs1, Hs2 in Hai. simpl in Hhd, Hai. rewrite !drop_0 in Hai.
  injection Hhd as <- <-. rewrite Ht1 in Ht2. injection Ht2 as <- <- <-.
  rewrite <- Hnn, <- Hai.
  exact (column_eq_refl (Column.mk l1 (Py.strip "`" p0) ty len prec
          (existsb (fun part => String.eqb part "AUTO_INCREMENT") r1)
          (negb (Py.contains "NOT NULL" l1)))).
Qed.

Lemma column_eq_ignores_other_tokens_witness :
  Column.eq (Column.mk "`a` int(11) DEFAULT 0" "a" "int" (Some 11%Z) None false true)
            (Column.mk "`a` int(11) DEFAULT 1" "a" "int" (Some 11%Z) None false true) = true.
Proof.
  apply (column_eq_ignores_other_tokens "`a` int(11) DEFAULT 0" "`a` int(11) DEFAULT 1");
    vm_compute; reflexivity.
Defined.

(** ** Splitting the dump *)

(** [sep.join(xs)] *)
Fixpoint join (sep : string) (xs : list string) : string :=
  match xs with
  | [] => ""
  | [x] => x
  | x :: xs' => x ++ sep ++ join sep xs'
  end.

Lemma string_app_cons (c : ascii) (s t : string) :
  (String c s ++ t)%string = String c (s ++ t).
Proof. reflexivity. Qed.

Lemma string_app_nil_l (s : string) : ("" ++ s)%string = s.
Proof. reflexivity. Qed.

Lemma string_app_nil_r (s : string) : (s ++ "")%string = s.
Proof. induction s as [|c s IH]; [reflexivity|]. exact (f_equal (String c) IH). Qed.

Lemma string_app_assoc (a b c : string) : ((a ++ b) ++ c)%string = (a ++ b ++ c)%string.
Proof. induction a as [|x a IH]; [reflexivity|]. exact (f_equal (String x) IH). Qed.

Lemma prefix_substring (sep s : string) (m : nat) :
  String.prefix sep s = true ->
  (String.length s - String.length sep <= m)%nat ->
  (sep ++ substring (String.length sep) m s)%string = s.
Proof.
  revert s. induction sep as [|a sep IH]; intros s Hp Hm; simpl.
  - apply substring_all. simpl in Hm. lia.
  - destruct s as [|b s]; simpl in Hp; [discriminate|].
    destruct (ascii_dec a b) as [<-|]; [|discriminate].
    rewrite string_app_cons. simpl. f_equal.
    apply IH; [exact Hp|]. simpl in Hm. lia.
Qed.

Lemma split_go_join (sep : string) (fuel : nat) (s cur : string) :
  Py.split_go fuel sep s cur <> [] /\
  join sep (Py.split_go fuel sep s cur) = (Py.rev_str cur ++ s)%string.
Proof.
  revert s cur. induction fuel as [|f IH]; intros s cur; simpl; [split; [discriminate|reflexivity]|].
  destruct s as [|c s'].
  - split; [discriminate|]. simpl. by rewrite string_app_nil_r.
  - destruct (String.prefix sep (String c s')) eqn:Hp.
    + split; [discriminate|].
      destruct (IH (substring (String.length sep) (String.length (String c s')) (String c s')) "")
        as [Hne Hj].
      destruct (Py.split_go f sep _ "") as [|x xs]; [congruence|].
      change (join sep (Py.rev_str cur :: x :: xs))
        with (Py.rev_str cur ++ sep ++ join sep (x :: xs))%string.
      rewrite Hj. f_equal. change (Py.rev_str "") with "". rewrite string_app_nil_l.
      apply prefix_substring; [exact Hp|lia].
    + destruct (IH s' (String c cur)) as [Hne Hj]. split; [exact Hne|].
      rewrite Hj. simpl. by rewrite string_app_assoc.
Qed.

(** [str.split(sep)] and [re.split], as [Table.parse] and [Schema.parse]
    use them to cut the dump into lines and blocks, lose nothing: there is
    at least one piece, and joining the pieces with the separator gives
    the text back. *)
Theorem py_split_join :
  forall sep s : string,
  Py.split sep s <> [] /\ join sep (Py.split sep s) = s.
Proof. intros sep s. exact (split_go_join sep _ s ""). Qed.

(** ** Where [Schema.parse]'s tables come from *)

(** Every table [Schema.parse] stores is the parse of one block of the
    dump, with a non-empty name: no table is made up or merged from
    several blocks. *)
Theorem schema_parse_tables_from_blocks :
  forall (search_db search_version : string -> option string) (path sql : string)
         (s : Schema.t) (n : string) (t : Table.t),
  Schema.parse search_db search_version path sql = Ok s ->
  Schema.tables s !! n = Some t ->
  In (Table.sql t) (Py.split "

" sql) /\ Table.parse (Table.sql t) = Ok t /\ Table.name t <> "".
Proof.
  intros sd sv path sql s n t. unfold Schema.parse, mbind, result_bind.
  destruct (Schema.add_blocks _ ∅) as [m|e] eqn:Ha; [|discriminate].
  intros [= <-] Ht. simpl in Ht. apply add_blocks_result in Ha. subst m.
  unfold table_map in Ht. rewrite (lookup_foldl_insert Table.name) in Ht.
  destruct (last (filter _ _)) as [t'|] eqn:Hl; [|rewrite lookup_empty in Ht; discriminate].
  injection Ht as ->. apply last_Some_elem_of, list_elem_of_filter in Hl as [_ Hin].
  unfold ok_tables in Hin. apply list_elem_of_omap in Hin as (b & Hb & Hf).
  destruct (Table.parse b) as [t'|] eqn:Hp; [|discriminate]. injection Hf as ->.
  destruct (table_parse_parts _ _ Hp) as (ks & _ & Hsql & Hname).
  rewrite Hsql. split; [apply list_elem_of_In; exact Hb|]. split; [exact Hp|exact Hname].
Qed.

Lemma schema_parse_tables_from_blocks_witness :
  match Schema.parse no_search no_search "dump.sql" scenario_src_dump with
  | Ok s => forall n t, Schema.tables s !! n = Some t -> Table.name t <> ""
  | Err _ => False
  end.
Proof.
  destruct (Schema.parse no_search no_search "dump.sql" scenario_src_dump) as [s|e] eqn:Hp.
  - intros n t Ht. exact (proj2 (proj2 (schema_parse_tables_from_blocks _ _ _ _ _ n t Hp Ht))).
  - vm_compute in Hp. discriminate.
Defined.
